(** * Bill-rate update of the planned matrix

    A shallow embedding of [update_bill_rate]
    (planMatrix-billRate-Update/function_app.py): the labor-category table
    supplies new bill rates, which are merged into the planned matrix on the
    five key columns [person.key], [project.key], [laborCategory.name],
    [beginDate] and [endDate].

    A DataFrame is a list of rows; a row is a record of its cells.  A pandas
    statement [df[c] = f(df[c])] is a pass over the rows that rewrites column
    [c]; a pass that raises leaves through the handler's [except] clause.

    Blob storage is outside the embedding: the handler takes the two tables
    as [read_csv_from_blob] returned them, the labor-category table with its
    columns already renamed, and returns its response together with the
    table it hands to [write_csv_to_blob], if any. *)

From Stdlib Require Import ZArith QArith List String Ascii Bool Lia Permutation.
Import ListNotations.
Open Scope string_scope.
Open Scope list_scope.
Open Scope Z_scope.

Set Implicit Arguments.

(** ** Values *)

(** A float64 cell.  [NaN] is pandas' missing value of a float column.  The
    other values are ordered numbers: a finite value is held exactly, the
    infinities bound them.  The program only compares and selects floats
    (group-wise [max], [combine_first]) and never computes with them;
    rounding to float64 is monotone, so it commutes with both. *)
Inductive float : Type :=
  | NaN
  | NegInf
  | Fin (q : Q)
  | PosInf.

(** [a < b] on floats; every comparison with [NaN] is false. *)
Definition float_ltb (a b : float) : bool :=
  match a, b with
  | NaN, _ | _, NaN => false
  | NegInf, NegInf => false
  | NegInf, _ => true
  | _, NegInf => false
  | PosInf, _ => false
  | Fin _, PosInf => true
  | Fin x, Fin y => negb (Qle_bool y x)
  end.

(** [a <= b] on floats that are not [NaN]. *)
Definition float_leb (a b : float) : bool :=
  match a, b with
  | NaN, _ | _, NaN => false
  | _, _ => negb (float_ltb b a)
  end.

(** [pd.isna] on a float cell. *)
Definition isna (x : float) : bool :=
  match x with NaN => true | _ => false end.

(** A cell of an identifier column as [read_csv] left it: missing, an
    integer-valued number, or any other content (a text, or a number with a
    fractional part), held as its text. *)
Inductive cell : Type :=
  | CNull
  | CInt (z : Z)
  | CStr (s : string).

(** A [datetime64[ns]] cell: [None] is [NaT], [Some t] counts the
    nanoseconds since the epoch. *)
Definition Timestamp : Type := option Z.

(** ** Exceptions *)

(** What the conversions of the handler raise. *)
Inductive exn : Type :=
  | IntCastError (c : cell)             (* astype("Int64") on a cell that is no integer *)
  | MalformedRateError (s : string)     (* astype(float): could not convert string to float *)
  | DateParseError (s : string).        (* to_datetime: unknown datetime string format *)

Inductive result (A : Type) : Type :=
  | Ok (a : A)
  | Raise (e : exn).
Arguments Ok {A} a.
Arguments Raise {A} e.

Definition bind {A B} (m : result A) (k : A -> result B) : result B :=
  match m with
  | Ok a => k a
  | Raise e => Raise e
  end.

Declare Scope result_scope.
Delimit Scope result_scope with result.
Notation "x <- m ;; k" := (bind m (fun x => k))
  (at level 61, m at next level, right associativity) : result_scope.
Open Scope result_scope.

(** A pass over a column: the first cell that raises ends it. *)
Fixpoint mapM {A B} (f : A -> result B) (l : list A) : result (list B) :=
  match l with
  | [] => Ok []
  | a :: l' => b <- f a ;; bs <- mapM f l' ;; Ok (b :: bs)
  end.

(** ** Rows *)

(** A row of either table: the five key columns, the rate column ([billRate]
    in the planned matrix, [new_billRate] in the labor-category table) and the
    remaining columns.  The types of the converted columns are parameters:
    a conversion changes the type of its column and nothing else. *)
Record Row (P J B E V X : Type) : Type := mkRow {
  person_key : P;
  project_key : J;
  laborCategory_name : option string;
  beginDate : B;
  endDate : E;
  rate : V;
  rest : X
}.

(** planned_matrix.csv as read: [billRate] is a float column, the other
    columns are carried along as text. *)
Definition RawPlanned : Type :=
  Row cell cell (option string) (option string) float (list string).

(** Labor Category.csv as read and renamed: [new_billRate] is still the text
    of its cell. *)
Definition RawLabor : Type :=
  Row cell cell (option string) (option string) (option string) unit.

(** After the conversions: [Int64] keys (with [<NA>]), timestamps (with
    [NaT]), float rates. *)
Definition Planned : Type :=
  Row (option Z) (option Z) Timestamp Timestamp float (list string).
Definition Labor : Type :=
  Row (option Z) (option Z) Timestamp Timestamp float unit.

Definition billRate {P J B E X} (r : Row P J B E float X) : float := rate r.
Definition new_billRate {P J B E V} (r : Row P J B E V unit) : V := rate r.

(** [df[c] = f(df[c])], one definition per column. *)
Definition assign_person_key {P P' J B E V X} (f : P -> result P')
    (df : list (Row P J B E V X)) : result (list (Row P' J B E V X)) :=
  mapM (fun r => v <- f (person_key r) ;;
                 Ok (mkRow v (project_key r) (laborCategory_name r)
                           (beginDate r) (endDate r) (rate r) (rest r))) df.

Definition assign_project_key {P J J' B E V X} (f : J -> result J')
    (df : list (Row P J B E V X)) : result (list (Row P J' B E V X)) :=
  mapM (fun r => v <- f (project_key r) ;;
                 Ok (mkRow (person_key r) v (laborCategory_name r)
                           (beginDate r) (endDate r) (rate r) (rest r))) df.

Definition assign_beginDate {P J B B' E V X} (f : B -> result B')
    (df : list (Row P J B E V X)) : result (list (Row P J B' E V X)) :=
  mapM (fun r => v <- f (beginDate r) ;;
                 Ok (mkRow (person_key r) (project_key r) (laborCategory_name r)
                           v (endDate r) (rate r) (rest r))) df.

Definition assign_endDate {P J B E E' V X} (f : E -> result E')
    (df : list (Row P J B E V X)) : result (list (Row P J B E' V X)) :=
  mapM (fun r => v <- f (endDate r) ;;
                 Ok (mkRow (person_key r) (project_key r) (laborCategory_name r)
                           (beginDate r) v (rate r) (rest r))) df.

Definition assign_rate {P J B E V V' X} (f : V -> result V')
    (df : list (Row P J B E V X)) : result (list (Row P J B E V' X)) :=
  mapM (fun r => v <- f (rate r) ;;
                 Ok (mkRow (person_key r) (project_key r) (laborCategory_name r)
                           (beginDate r) (endDate r) v (rest r))) df.

(** The row with its rate replaced. *)
Definition set_rate {P J B E V X} (r : Row P J B E V X) (v : V) : Row P J B E V X :=
  mkRow (person_key r) (project_key r) (laborCategory_name r)
        (beginDate r) (endDate r) v (rest r).

(** Row [n] is row [r] with each converted column read by its conversion
    and every other cell unchanged. *)
Definition converted {P P' J J' B B' E E' V V' X}
    (fp : P -> result P') (fj : J -> result J')
    (fb : B -> result B') (fe : E -> result E') (fv : V -> result V')
    (r : Row P J B E V X) (n : Row P' J' B' E' V' X) : Prop :=
  fp (person_key r) = Ok (person_key n)
  /\ fj (project_key r) = Ok (project_key n)
  /\ laborCategory_name n = laborCategory_name r
  /\ fb (beginDate r) = Ok (beginDate n)
  /\ fe (endDate r) = Ok (endDate n)
  /\ fv (rate r) = Ok (rate n)
  /\ rest n = rest r.

(** ** Column conversions *)

Definition cell_isna (c : cell) : bool :=
  match c with CNull => true | _ => false end.

Definition opt_isna {A} (o : option A) : bool :=
  match o with None => true | Some _ => false end.

(** A labor-category row with no missing value in the six columns named by
    [dropna(subset=[...])]. *)
Definition complete (r : RawLabor) : bool :=
  negb (cell_isna (person_key r)) && negb (cell_isna (project_key r))
  && negb (opt_isna (laborCategory_name r))
  && negb (opt_isna (beginDate r)) && negb (opt_isna (endDate r))
  && negb (opt_isna (new_billRate r)).

(** [labor_category_df.dropna(subset=[...], inplace=True)] *)
Definition dropna (df : list RawLabor) : list RawLabor := filter complete df.

(** [astype(str)] on a text cell; a missing value reads "nan". *)
Definition astype_str (c : option string) : string :=
  match c with
  | Some s => s
  | None => "nan"
  end.

(** [s.replace(c, "")] for a one-character pattern [c], as
    [.str.replace(c, "", regex=False)] applies it to each cell. *)
Fixpoint str_replace (c : ascii) (s : string) : string :=
  match s with
  | EmptyString => EmptyString
  | String a s' =>
      if Ascii.eqb a c then str_replace c s' else String a (str_replace c s')
  end.

(** The text a rate cell is parsed from: no "$", no ",". *)
Definition strip_currency (c : option string) : string :=
  str_replace "," (str_replace "$" (astype_str c)).

(** ** Keys, grouping and the merge *)

(** The five columns the tables are grouped and merged on. *)
Definition key : Type :=
  (option Z * option Z * option string * Timestamp * Timestamp)%type.

Definition key_of {V X} (r : Row (option Z) (option Z) Timestamp Timestamp V X) : key :=
  (person_key r, project_key r, laborCategory_name r, beginDate r, endDate r).

Definition key_eq_dec (a b : key) : {a = b} + {a <> b}.
Proof.
  unfold key, Timestamp in *.
  repeat decide equality.
Defined.

Definition key_eqb (a b : key) : bool :=
  if key_eq_dec a b then true else false.

Arguments key_eq_dec : simpl never.
Arguments key_eqb : simpl never.

(** No component of the key is missing. *)
Definition key_notna (k : key) : bool :=
  let '(p, j, n, b, e) := k in
  negb (opt_isna p) && negb (opt_isna j) && negb (opt_isna n)
  && negb (opt_isna b) && negb (opt_isna e).

Definition opt_compare {A} (cmp : A -> A -> comparison) (a b : option A) : comparison :=
  match a, b with
  | None, None => Eq
  | None, Some _ => Lt
  | Some _, None => Gt
  | Some x, Some y => cmp x y
  end.

Definition lex (c1 c2 : comparison) : comparison :=
  match c1 with Eq => c2 | _ => c1 end.

(** Keys compared column by column, as [groupby] sorts its groups. *)
Definition key_compare (a b : key) : comparison :=
  let '(p1, j1, n1, b1, e1) := a in
  let '(p2, j2, n2, b2, e2) := b in
  lex (opt_compare Z.compare p1 p2)
   (lex (opt_compare Z.compare j1 j2)
    (lex (opt_compare String.compare n1 n2)
     (lex (opt_compare Z.compare b1 b2) (opt_compare Z.compare e1 e2)))).

Definition key_leb (a b : key) : bool :=
  match key_compare a b with Gt => false | _ => true end.

(** One step of the group-wise [max]: a [NaN] is skipped, a value replaces
    the running maximum when it is greater. *)
Definition max_step (acc v : float) : float :=
  if isna v then acc
  else if isna acc then v
  else if float_ltb acc v then v else acc.

(** [Series.max()] of a group: [NaN] when every value is [NaN]. *)
Definition series_max (l : list float) : float := fold_left max_step l NaN.

(** A row of key [k] and rate [v] joins its group, or opens a new group
    behind the others. *)
Fixpoint agg_insert (k : key) (v : float) (groups : list (key * float))
    : list (key * float) :=
  match groups with
  | [] => [(k, v)]
  | (k', m) :: groups' =>
      if key_eq_dec k k' then (k', max_step m v) :: groups'
      else (k', m) :: agg_insert k v groups'
  end.

(** The groups of a table, in the order in which their keys first occur. *)
Definition aggregate (df : list Labor) (groups : list (key * float))
    : list (key * float) :=
  fold_left (fun gs r => agg_insert (key_of r) (new_billRate r) gs) df groups.

(** Insertion sort of the groups by key. *)
Fixpoint insert_group (g : key * float) (l : list (key * float)) : list (key * float) :=
  match l with
  | [] => [g]
  | h :: t => if key_leb (fst g) (fst h) then g :: l else h :: insert_group g t
  end.

Definition sort_groups (l : list (key * float)) : list (key * float) :=
  fold_right insert_group [] l.

Definition group_row (g : key * float) : Labor :=
  let '(p, j, n, b, e, m) := g in mkRow p j n b e m tt.

(** [df.groupby([five keys], as_index=False).agg({"new_billRate": "max"})]:
    rows with a missing key are left out ([dropna=True]), every remaining key
    keeps one row with the maximum of its rates, and the groups come sorted
    by key ([sort=True]). *)
Definition groupby_max (df : list Labor) : list Labor :=
  map group_row
    (sort_groups (aggregate (filter (fun r => key_notna (key_of r)) df) [])).

(** [left.merge(right, on=[five keys], how="left")], restricted to the
    columns that are used afterwards: the left rows in their order, each once
    per right row of the same key with that row's [new_billRate], or once
    with [NaN] when no right row has its key.  Missing values in key columns
    match each other, as they do in pandas. *)
Definition merge_left (left : list Planned) (right : list Labor)
    : list (Planned * float) :=
  flat_map
    (fun l =>
       match filter (fun r => key_eqb (key_of l) (key_of r)) right with
       | [] => [(l, NaN)]
       | matches => map (fun r => (l, new_billRate r)) matches
       end)
    left.

(** [new.combine_first(old)] on one row. *)
Definition combine_first (new old : float) : float :=
  if isna new then old else new.

(** Lines 108-125 over a join [join]: group, join, take the new rate where
    there is one, drop the helper column. *)
Definition reconcile_with (join : list Planned -> list Labor -> list (Planned * float))
    (planned_matrix_df : list Planned) (labor_category_df : list Labor)
    : list Planned :=
  let labor_category_df := groupby_max labor_category_df in
  let updated_planned_matrix := join planned_matrix_df labor_category_df in
  map (fun row => set_rate (fst row) (combine_first (snd row) (billRate (fst row))))
      updated_planned_matrix.

Definition reconcile : list Planned -> list Labor -> list Planned :=
  reconcile_with merge_left.

(** ** The handler *)

(** The body of a response; the handler formats the counts and the exception
    into its text. *)
Inductive body : Type :=
  | UpdatedAndUploaded                          (* "CSV file updated and uploaded successfully." *)
  | RowCountMismatch (original updated : nat)   (* "Row count mismatch: Original=.., Updated=.." *)
  | ErrorProcessingRequest (e : exn).           (* "Error processing request: .." *)

Record HttpResponse : Type := Response {
  content : body;
  status_code : Z
}.

(** What a request leaves behind: the response, and the table written to
    planned_matrix.csv when [write_csv_to_blob] was reached. *)
Record Outcome : Type := mkOutcome {
  response : HttpResponse;
  uploaded : option (list Planned)
}.

Section Handler.

(** The library readers of a text cell, each [None] where the library
    raises: the integer a text stands for in [astype("Int64")], [float(text)],
    and the parse of one date text by [pd.to_datetime] (a date text may read
    as [NaT]). *)
Variable parse_int : string -> option Z.
Variable parse_float : string -> option float.
Variable parse_datetime : string -> option Timestamp.

(** [astype("Int64")] on one cell: a missing value becomes [<NA>], an integer
    is kept, a text is read as an integer or raises. *)
Definition astype_Int64 (c : cell) : result (option Z) :=
  match c with
  | CNull => Ok None
  | CInt z => Ok (Some z)
  | CStr s =>
      match parse_int s with
      | Some z => Ok (Some z)
      | None => Raise (IntCastError c)
      end
  end.

(** Lines 94-100 on one cell. *)
Definition to_float (c : option string) : result float :=
  let s := strip_currency c in
  match parse_float s with
  | Some x => Ok x
  | None => Raise (MalformedRateError s)
  end.

(** [pd.to_datetime] on one cell: a missing value becomes [NaT]. *)
Definition to_datetime (c : option string) : result Timestamp :=
  match c with
  | None => Ok None
  | Some s =>
      match parse_datetime s with
      | Some t => Ok t
      | None => Raise (DateParseError s)
      end
  end.

(** Lines 84-106: the conversions in the order of the source. *)
Definition normalize (planned_matrix_df : list RawPlanned)
    (labor_category_df : list RawLabor) : result (list Planned * list Labor) :=
  let lc := dropna labor_category_df in
  lc <- assign_person_key astype_Int64 lc ;;
  lc <- assign_project_key astype_Int64 lc ;;
  pm <- assign_person_key astype_Int64 planned_matrix_df ;;
  pm <- assign_project_key astype_Int64 pm ;;
  lc <- assign_rate to_float lc ;;
  lc <- assign_beginDate to_datetime lc ;;
  lc <- assign_endDate to_datetime lc ;;
  pm <- assign_beginDate to_datetime pm ;;
  pm <- assign_endDate to_datetime pm ;;
  Ok (pm, lc).

(** [update_bill_rate] over a join [join]. *)
Definition update_bill_rate_with
    (join : list Planned -> list Labor -> list (Planned * float))
    (planned_matrix_df : list RawPlanned) (labor_category_df : list RawLabor)
    : Outcome :=
  match normalize planned_matrix_df labor_category_df with
  | Raise e => mkOutcome (Response (ErrorProcessingRequest e) 500) None
  | Ok (planned_matrix_df, labor_category_df) =>
      let updated_planned_matrix :=
        reconcile_with join planned_matrix_df labor_category_df in
      let final_row_count := List.length updated_planned_matrix in
      let original_row_count := List.length planned_matrix_df in
      if negb (Nat.eqb final_row_count original_row_count) then
        mkOutcome
          (Response (RowCountMismatch original_row_count final_row_count) 500)
          None
      else
        mkOutcome (Response UpdatedAndUploaded 200) (Some updated_planned_matrix)
  end.

(** [update_bill_rate]: the join is pandas' left merge. *)
Definition update_bill_rate : list RawPlanned -> list RawLabor -> Outcome :=
  update_bill_rate_with merge_left.

(** What the conversions make of a row of each table. *)
Definition planned_converted : RawPlanned -> Planned -> Prop :=
  converted astype_Int64 astype_Int64 to_datetime to_datetime Ok.

Definition labor_converted : RawLabor -> Labor -> Prop :=
  converted astype_Int64 astype_Int64 to_datetime to_datetime to_float.

(** A key or date cell of the row raises [e]. *)
Definition key_or_date_raises {V X}
    (r : Row cell cell (option string) (option string) V X) (e : exn) : Prop :=
  astype_Int64 (person_key r) = Raise e
  \/ astype_Int64 (project_key r) = Raise e
  \/ to_datetime (beginDate r) = Raise e
  \/ to_datetime (endDate r) = Raise e.

End Handler.

(** ** Readers for the examples

    The development is parametric in the library readers.  The examples
    run it with the readers below: decimal integers, decimal literals as
    Python's [float] reads them (blanks around the text, a sign, digits with an optional
    fraction and exponent, [inf], [infinity] and [nan]; digit-group
    underscores are not read), and ISO calendar dates [YYYY-MM-DD] (and
    [NaT]) as [pd.to_datetime] reads them. *)

Definition is_digit (c : ascii) : bool :=
  let n := nat_of_ascii c in (48 <=? n)%nat && (n <=? 57)%nat.

Definition digit_val (c : ascii) : Z := Z.of_nat (nat_of_ascii c) - 48.

Definition is_space (c : ascii) : bool :=
  let n := nat_of_ascii c in ((9 <=? n)%nat && (n <=? 13)%nat) || (n =? 32)%nat.

Fixpoint lstrip (s : string) : string :=
  match s with
  | String c s' => if is_space c then lstrip s' else s
  | EmptyString => s
  end.

Fixpoint rstrip (s : string) : string :=
  match s with
  | EmptyString => EmptyString
  | String c s' =>
      match rstrip s' with
      | EmptyString => if is_space c then EmptyString else String c EmptyString
      | r => String c r
      end
  end.

Definition lower (c : ascii) : ascii :=
  let n := nat_of_ascii c in
  if (65 <=? n)%nat && (n <=? 90)%nat then ascii_of_nat (n + 32) else c.

Fixpoint lowercase (s : string) : string :=
  match s with
  | EmptyString => EmptyString
  | String c s' => String (lower c) (lowercase s')
  end.

(** The leading digits of [s]: their value after [acc], how many they are,
    and the text behind them. *)
Fixpoint read_digits (s : string) (acc : Z) (n : nat) : Z * nat * string :=
  match s with
  | String c s' =>
      if is_digit c then read_digits s' (10 * acc + digit_val c) (S n)
      else (acc, n, s)
  | EmptyString => (acc, n, s)
  end.

(** A leading sign: [true] for "-". *)
Definition read_sign (s : string) : bool * string :=
  match s with
  | String "-" s' => (true, s')
  | String "+" s' => (false, s')
  | _ => (false, s)
  end.

(** [m * 10^e] as a fraction in lowest terms. *)
Definition scale10 (m e : Z) : Q :=
  Qred (if 0 <=? e then inject_Z (m * 10 ^ e)
        else Qmake m (Z.to_pos (10 ^ (- e)))).

(** An exponent part, or nothing; [None] when the text goes on otherwise. *)
Definition read_exponent (s : string) : option Z :=
  match s with
  | EmptyString => Some 0
  | String c s' =>
      if Ascii.eqb (lower c) "e" then
        let '(neg, s1) := read_sign s' in
        match read_digits s1 0 0 with
        | (_, O, _) => None
        | (e, _, EmptyString) => Some (if neg then - e else e)
        | _ => None
        end
      else None
  end.

(** A decimal integer as Python's [int] reads it: blanks around the text, a
    sign, digits. *)
Definition int_of_string (text : string) : option Z :=
  let '(neg, s) := read_sign (rstrip (lstrip text)) in
  match read_digits s 0 0 with
  | (_, O, _) => None
  | (z, _, EmptyString) => Some (if neg then - z else z)
  | _ => None
  end.

Definition float_of_string (text : string) : option float :=
  let '(neg, s) := read_sign (rstrip (lstrip text)) in
  let l := lowercase s in
  if String.eqb l "nan" then Some NaN
  else if String.eqb l "inf" || String.eqb l "infinity" then
    Some (if neg then NegInf else PosInf)
  else
    let '(ip, ni, s1) := read_digits s 0 0 in
    let '(fp, nf, s2) :=
      match s1 with
      | String "." s1' => read_digits s1' ip 0
      | _ => (ip, O, s1)
      end in
    match (ni + nf)%nat, read_exponent s2 with
    | O, _ => None
    | _, None => None
    | _, Some e =>
        let m := if neg then - fp else fp in
        Some (Fin (scale10 m (e - Z.of_nat nf)))
    end.

(** Days from 1970-01-01 to the civil date [y]-[m]-[d]. *)
Definition days_from_civil (y m d : Z) : Z :=
  let y' := if m <=? 2 then y - 1 else y in
  let era := y' / 400 in
  let yoe := y' - era * 400 in
  let mp := (m + 9) mod 12 in
  let doy := (153 * mp + 2) / 5 + d - 1 in
  let doe := yoe * 365 + yoe / 4 - yoe / 100 + doy in
  era * 146097 + doe - 719468.

Definition days_in_month (y m : Z) : Z :=
  if m =? 2 then
    if ((y mod 4 =? 0) && negb (y mod 100 =? 0)) || (y mod 400 =? 0) then 29 else 28
  else if (m =? 4) || (m =? 6) || (m =? 9) || (m =? 11) then 30
  else 31.

Definition iso_date (text : string) : option Timestamp :=
  if String.eqb text "NaT" then Some None
  else
    match read_digits text 0 0 with
    | (y, 4%nat, String "-" s1) =>
        match read_digits s1 0 0 with
        | (m, 2%nat, String "-" s2) =>
            match read_digits s2 0 0 with
            | (d, 2%nat, EmptyString) =>
                if (1 <=? m) && (m <=? 12) && (1 <=? d) && (d <=? days_in_month y m)
                then Some (Some (days_from_civil y m d * 86400000000000))
                else None
            | _ => None
            end
        | _ => None
        end
    | _ => None
    end.

Definition run_update_bill_rate : list RawPlanned -> list RawLabor -> Outcome :=
  update_bill_rate int_of_string float_of_string iso_date.

(** ** Reading the tables *)

(** The aggregated rate of key [k] in a list of groups. *)
Fixpoint find_group (k : key) (groups : list (key * float)) : option float :=
  match groups with
  | [] => None
  | (k', m) :: groups' => if key_eq_dec k k' then Some m else find_group k groups'
  end.

(** The [new_billRate] values of the rows of key [k], in table order. *)
Definition group_rates (k : key) (df : list Labor) : list float :=
  map (fun r => new_billRate r) (filter (fun r => key_eqb (key_of r) k) df).

(** The rate attached to key [k] by a table in which [k] occurs at most
    once: the rate of its row, [NaN] when it has none. *)
Definition lookup_rate (k : key) (right : list Labor) : float :=
  match find (fun r => key_eqb k (key_of r)) right with
  | Some r => new_billRate r
  | None => NaN
  end.

(** The running maximum of a group that may still be empty. *)
Definition opt_step (o : option float) (v : float) : option float :=
  Some (match o with Some m => max_step m v | None => v end).

(** The columns of a planned row other than [billRate]. *)
Definition other_columns (r : Planned) : key * list string := (key_of r, rest r).

(** A character of a plain decimal number: a digit, a sign, the decimal
    point or an exponent mark. *)
Definition numeric_char (c : ascii) : bool :=
  is_digit c || Ascii.eqb c "." || Ascii.eqb c "+" || Ascii.eqb c "-"
  || Ascii.eqb c "e" || Ascii.eqb c "E".

(** ** Example tables *)

(** One planned assignment, billed at 100. *)
Definition engineer_row (person : cell) (begin : option string) : RawPlanned :=
  mkRow person (CInt 10) (Some "Engineer") begin (Some "2024-06-30")
        (Fin 100) ["Jane Doe"; "40"].

Definition scenario_baseline : list RawPlanned :=
  [engineer_row (CInt 1) (Some "2024-01-01")].

(** A new rate for the engineer's key. *)
Definition engineer_override (person : cell) (new_rate : option string) : RawLabor :=
  mkRow person (CInt 10) (Some "Engineer") (Some "2024-01-01") (Some "2024-06-30")
        new_rate tt.

Definition scenario_overrides : list RawLabor :=
  [engineer_override (CInt 1) (Some "$125.00")].

(** The baseline row of the scenario after the conversions. *)
Definition engineer_planned (r : float) : Planned :=
  mkRow (Some 1) (Some 10) (Some "Engineer")
        (Some 1704067200000000000) (Some 1719705600000000000) r ["Jane Doe"; "40"].

(** A defective join: every joined row comes twice. *)
Definition doubling_join (left : list Planned) (right : list Labor)
    : list (Planned * float) :=
  merge_left left right ++ merge_left left right.

(** ** Comparing rates *)

(** Two floats are the same number (or both [NaN]); a finite number may be
    held as different fractions. *)
Definition float_eq (a b : float) : Prop :=
  match a, b with
  | NaN, NaN | NegInf, NegInf | PosInf, PosInf => True
  | Fin x, Fin y => Qeq x y
  | _, _ => False
  end.

(** Two planned rows agree in every column, their [billRate] as numbers. *)
Definition same_row (u v : Planned) : Prop :=
  other_columns u = other_columns v /\ float_eq (billRate u) (billRate v).

(** ** The columns the handler converts *)



Section Columns.

Variable parse_int : string -> option Z.
Variable parse_float : string -> option float.
Variable parse_datetime : string -> option Timestamp.
Variable planned_matrix_df : list RawPlanned.
Variable labor_category_df : list RawLabor.





End Columns.

(** ** The handler with its blobs and its log *)

Definition PLANNED_MATRIX_BLOB : string := "planned_matrix.csv".
Definition LABOR_CATEGORY_BLOB : string := "Labor Category.csv".

(** What a request can fail with: a blob that cannot be read or written, or
    an exception of the conversions. *)
Inductive failure : Type :=
  | ReadError (blob_name : string)
  | WriteError (blob_name : string)
  | ConversionError (e : exn).

(** The calls to [logging] of the file. *)
Inductive log_entry : Type :=
  | ProcessingRequest                                   (* info, line 60 *)
  | ErrorReadingBlob (blob_name : string)               (* error, line 39 *)
  | CsvFilesLoaded                                      (* info, line 67 *)
  | RowCountMismatchLogged (original updated : nat)     (* error, line 132 *)
  | UploadedToBlob (blob_name : string)                 (* info, line 50 *)
  | ErrorWritingBlob (blob_name : string)               (* error, line 52 *)
  | CsvFileUpdated                                      (* info, line 137 *)
  | ErrorProcessing (e : failure).                      (* error, line 142 *)

(** The entry was logged with [logging.error]. *)
Definition is_error (l : log_entry) : bool :=
  match l with
  | ErrorReadingBlob _ | RowCountMismatchLogged _ _
  | ErrorWritingBlob _ | ErrorProcessing _ => true
  | ProcessingRequest | CsvFilesLoaded | UploadedToBlob _ | CsvFileUpdated => false
  end.

(** The text of a response. *)
Inductive reply_text : Type :=
  | UpdatedText                                 (* "CSV file updated and uploaded successfully." *)
  | MismatchText (original updated : nat)       (* "Row count mismatch: Original=.., Updated=.." *)
  | ErrorText (e : failure).                    (* "Error processing request: .." *)

Record HttpReply : Type := Reply {
  reply_text_of : reply_text;
  reply_status : Z
}.

Section BlobStorage.

(** The container of the storage account and its two operations.
    [download_blob] stands for getting the client of the blob,
    [download_blob().readall()] and [decode("utf-8")]: the text, [None]
    where one of them raises.  [upload_blob] stands for
    [upload_blob(data, overwrite=True)]: the container after the call, and
    whether the call returned ([true]) or raised. *)
Variable container : Type.
Variable download_blob : container -> string -> option string.
Variable upload_blob : container -> string -> string -> container * bool.

(** [pd.read_csv(text, skiprows=1 if skip_first_row else 0)] with the column
    names stripped, [None] where it raises, read as the rows of either
    table (for the labor-category table under the names it is renamed to);
    [dataframe.to_csv(index=False)]. *)
Variable read_planned_csv : bool -> string -> option (list RawPlanned).
Variable read_labor_csv : bool -> string -> option (list RawLabor).
Variable to_csv : list Planned -> string.

Variable parse_int : string -> option Z.
Variable parse_float : string -> option float.
Variable parse_datetime : string -> option Timestamp.

(** What a request leaves behind: its response, the container and the log. *)
Record Served : Type := mkServed {
  reply : HttpReply;
  stored : container;
  logged : list log_entry
}.

(** [read_csv_from_blob]: the table, or the exception after it was logged. *)
Definition read_csv_from_blob {A} (read_csv : bool -> string -> option A)
    (c : container) (blob_name : string) (skip_first_row : bool)
    : (failure + A) * list log_entry :=
  match download_blob c blob_name with
  | Some text =>
      match read_csv skip_first_row text with
      | Some df => (inr df, [])
      | None => (inl (ReadError blob_name), [ErrorReadingBlob blob_name])
      end
  | None => (inl (ReadError blob_name), [ErrorReadingBlob blob_name])
  end.

(** The table a blob holds, if it can be downloaded and read. *)
Definition blob_table {A} (read_csv : bool -> string -> option A)
    (c : container) (blob_name : string) (skip_first_row : bool) : option A :=
  match download_blob c blob_name with
  | Some text => read_csv skip_first_row text
  | None => None
  end.

(** [write_csv_to_blob]: the container after the upload, the exception if
    the upload raised, and what was logged. *)
Definition write_csv_to_blob (c : container) (dataframe : list Planned)
    (blob_name : string) : container * option failure * list log_entry :=
  match upload_blob c blob_name (to_csv dataframe) with
  | (c', true) => (c', None, [UploadedToBlob blob_name])
  | (c', false) => (c', Some (WriteError blob_name), [ErrorWritingBlob blob_name])
  end.

(** The [except] clause of the handler. *)
Definition processing_failed (c : container) (log : list log_entry) (e : failure)
    : Served :=
  mkServed (Reply (ErrorText e) 500) c (log ++ [ErrorProcessing e]).

(** [update_bill_rate] as the route serves it. *)
Definition serve_update_bill_rate (c : container) : Served :=
  let log := [ProcessingRequest] in
  match read_csv_from_blob read_planned_csv c PLANNED_MATRIX_BLOB false with
  | (inl e, l) => processing_failed c (log ++ l) e
  | (inr planned_matrix_df, l) =>
  let log := log ++ l in
  match read_csv_from_blob read_labor_csv c LABOR_CATEGORY_BLOB true with
  | (inl e, l) => processing_failed c (log ++ l) e
  | (inr labor_category_df, l) =>
  let log := log ++ l ++ [CsvFilesLoaded] in
  match normalize parse_int parse_float parse_datetime
          planned_matrix_df labor_category_df with
  | Raise e => processing_failed c log (ConversionError e)
  | Ok (planned_matrix_df, labor_category_df) =>
  let updated_planned_matrix := reconcile planned_matrix_df labor_category_df in
  let final_row_count := List.length updated_planned_matrix in
  let original_row_count := List.length planned_matrix_df in
  if negb (Nat.eqb final_row_count original_row_count) then
    mkServed (Reply (MismatchText original_row_count final_row_count) 500) c
             (log ++ [RowCountMismatchLogged original_row_count final_row_count])
  else
    match write_csv_to_blob c updated_planned_matrix PLANNED_MATRIX_BLOB with
    | (c', Some e, l) => processing_failed c' (log ++ l) e
    | (c', None, l) => mkServed (Reply UpdatedText 200) c' (log ++ l ++ [CsvFileUpdated])
    end
  end end end.

End BlobStorage.

(** ** An example container *)

(** A container held in memory: the text of every blob it has. *)
Definition memory_container : Type := string -> option string.

Definition memory_download (c : memory_container) (blob_name : string)
    : option string :=
  c blob_name.

Definition memory_upload (c : memory_container) (blob_name data : string)
    : memory_container * bool :=
  (fun n => if String.eqb n blob_name then Some data else c n, true).

(** The two blobs of the scenario, with stand-ins for their texts and for
    the CSV reader and writer. *)
Definition scenario_container : memory_container :=
  fun n =>
    if String.eqb n PLANNED_MATRIX_BLOB then Some "planned matrix"
    else if String.eqb n LABOR_CATEGORY_BLOB then Some "labor categories"
    else None.

Definition serve_scenario : memory_container -> Served memory_container :=
  serve_update_bill_rate memory_download memory_upload
    (fun _ _ => Some scenario_baseline) (fun _ _ => Some scenario_overrides)
    (fun _ => "updated planned matrix")
    int_of_string float_of_string iso_date.

(** * The fetch loops of the other functions

    invoices-update/function_app.py and planMatrix/function_app.py walk
    through the ids of the upstream service until a run of ids with nothing
    to fetch.  The service is a parameter: what the request for an id meets.
    A loop may go on for ever, so it runs on fuel: [None] is a loop that has
    not ended yet. *)

(** What a fetch leaves: the list it returns, or an exception that it does
    not catch. *)
Inductive fetched (J : Type) : Type :=
  | Returned (data : list J)
  | Raised.
Arguments Returned {J} data.
Arguments Raised {J}.

Module Invoices.
Section FetchAllInvoices.

Variable Json : Type.

(** The request for one invoice: status 404; a body [response.json()]
    reads; a [RequestException] of [requests.get], [raise_for_status] or
    [json]; any other exception. *)
Inductive answer : Type :=
  | NotFound
  | Invoice (invoice_data : Json)
  | RequestFailed
  | OtherFailure.

Variable get_invoice : nat -> answer.

(** The [while] loop of [fetch_all_invoices]. *)
Fixpoint fetch_loop (fuel max_consecutive_misses invoice_id : nat)
    (invoices : list Json) (consecutive_misses : nat) : option (fetched Json) :=
  match fuel with
  | O => None
  | S fuel' =>
      if (consecutive_misses <? max_consecutive_misses)%nat then
        match get_invoice invoice_id with
        | NotFound =>
            fetch_loop fuel' max_consecutive_misses (invoice_id + 1) invoices
                       (consecutive_misses + 1)
        | Invoice invoice_data =>
            fetch_loop fuel' max_consecutive_misses (invoice_id + 1)
                       (invoices ++ [invoice_data]) 0
        | RequestFailed => Some (Returned invoices)
        | OtherFailure => Some Raised
        end
      else Some (Returned invoices)
  end.

Definition fetch_all_invoices (fuel max_consecutive_misses : nat)
    : option (fetched Json) :=
  fetch_loop fuel max_consecutive_misses 1 [] 0.

(** The invoices the service holds under the [n] ids from [first] on. *)
Definition invoices_from (first n : nat) : list Json :=
  flat_map (fun i => match get_invoice i with Invoice d => [d] | _ => [] end)
           (seq first n).

End FetchAllInvoices.
End Invoices.

Module PlannedTime.
Section FetchPlannedTime.

Variable Json : Type.

(** [bool(data)]: null, false, zero and an empty text, list or object are
    falsy. *)
Variable truthy : Json -> bool.

(** The request for the planned time of one project: a body
    [response.json()] reads; a [RequestException]; any other exception. *)
Inductive answer : Type :=
  | Data (data : Json)
  | RequestFailed
  | OtherFailure.

Variable get_planned_time : nat -> answer.

(** [fetch_planned_time]: the data, [None] after a [RequestException];
    the outer [None] is an exception it does not catch. *)
Definition fetch_planned_time (project_id : nat) : option (option Json) :=
  match get_planned_time project_id with
  | Data data => Some (Some data)
  | RequestFailed => Some None
  | OtherFailure => None
  end.

Definition max_failures : nat := 200.
Definition start_project_id : nat := 2000.

(** The [while] loop of [unanet_fetch_planned_time]. *)
Fixpoint planned_time_loop (fuel project_id : nat) (planned_time_data : list Json)
    (failure_count : nat) : option (fetched Json) :=
  match fuel with
  | O => None
  | S fuel' =>
      if (failure_count <? max_failures)%nat then
        match fetch_planned_time project_id with
        | None => Some Raised
        | Some (Some data) =>
            if truthy data then
              planned_time_loop fuel' (project_id + 1) (planned_time_data ++ [data]) 0
            else
              planned_time_loop fuel' (project_id + 1) planned_time_data
                                (failure_count + 1)
        | Some None =>
            planned_time_loop fuel' (project_id + 1) planned_time_data
                              (failure_count + 1)
        end
      else Some (Returned planned_time_data)
  end.

Definition fetch_all_planned_time (fuel : nat) : option (fetched Json) :=
  planned_time_loop fuel start_project_id [] 0.

(** The request for a project gives nothing to keep. *)
Definition nothing_planned (project_id : nat) : Prop :=
  fetch_planned_time project_id = Some None
  \/ exists data, fetch_planned_time project_id = Some (Some data)
                  /\ truthy data = false.

(** The planned times the service holds under the [n] ids from [first] on. *)
Definition planned_from (first n : nat) : list Json :=
  flat_map (fun i => match get_planned_time i with
                     | Data d => if truthy d then [d] else []
                     | _ => []
                     end)
           (seq first n).

End FetchPlannedTime.
End PlannedTime.

(** The two loops as one walk over ids: what an id contributes. *)
Inductive probe (J : Type) : Type :=
  | Hit (d : J)
  | Miss
  | Stop
  | Abort.
Arguments Hit {J} d.
Arguments Miss {J}.
Arguments Stop {J}.
Arguments Abort {J}.

Section Scan.

Variable J : Type.
Variable classify : nat -> probe J.

Fixpoint scan (fuel max id : nat) (acc : list J) (misses : nat)
    : option (fetched J) :=
  match fuel with
  | O => None
  | S fuel' =>
      if (misses <? max)%nat then
        match classify id with
        | Hit d => scan fuel' max (id + 1) (acc ++ [d]) 0
        | Miss => scan fuel' max (id + 1) acc (misses + 1)
        | Stop => Some (Returned acc)
        | Abort => Some Raised
        end
      else Some (Returned acc)
  end.

Definition hits (first n : nat) : list J :=
  flat_map (fun i => match classify i with Hit d => [d] | _ => [] end) (seq first n).

(** The [n] ids from [first] on are misses. *)
Definition misses_run (first n : nat) : Prop :=
  forall j, (j < n)%nat -> classify (first + j) = Miss.

End Scan.

Definition invoice_probe {Json} (a : Invoices.answer Json) : probe Json :=
  match a with
  | Invoices.NotFound _ => Miss
  | Invoices.Invoice d => Hit d
  | Invoices.RequestFailed _ => Stop
  | Invoices.OtherFailure _ => Abort
  end.

Definition planned_probe {Json} (truthy : Json -> bool)
    (a : PlannedTime.answer Json) : probe Json :=
  match a with
  | PlannedTime.Data d => if truthy d then Hit d else Miss
  | PlannedTime.RequestFailed _ => Miss
  | PlannedTime.OtherFailure _ => Abort
  end.

(** ** Example services *)

(** Invoices 1 and 3, a failing request for id 6, nothing else. *)
Definition example_invoices (i : nat) : Invoices.answer nat :=
  if Nat.eqb i 1 || Nat.eqb i 3 then Invoices.Invoice i
  else if Nat.eqb i 6 then Invoices.RequestFailed nat
  else Invoices.NotFound nat.

(** Planned time for project 2000 only. *)
Definition example_planned_time (i : nat) : PlannedTime.answer nat :=
  if Nat.eqb i 2000 then PlannedTime.Data i else PlannedTime.RequestFailed nat.

(** * Properties *)

(** ** Floats *)

Lemma float_ltb_asym (a b : float) :
  float_ltb a b = true -> float_ltb b a = false.
Proof.
  destruct a as [| |x|], b as [| |y|]; simpl; try reflexivity; try discriminate.
  rewrite !negb_true_iff, negb_false_iff.
  intros H. apply Qle_bool_iff.
  destruct (Qlt_le_dec y x) as [Hlt|Hle]; [|exact Hle].
  apply Qlt_le_weak in Hlt. apply Qle_bool_iff in Hlt. congruence.
Qed.

Lemma float_leb_refl (a : float) : isna a = false -> float_leb a a = true.
Proof.
  destruct a as [| |x|]; simpl; try reflexivity; try discriminate.
  intros _. rewrite negb_involutive. apply Qle_bool_iff, Qle_refl.
Qed.

Lemma float_leb_notna (a b : float) :
  float_leb a b = true -> isna a = false /\ isna b = false.
Proof.
  destruct a, b; simpl; intros H; try discriminate; split; reflexivity.
Qed.

Lemma float_leb_trans (a b c : float) :
  float_leb a b = true -> float_leb b c = true -> float_leb a c = true.
Proof.
  destruct a as [| |x|], b as [| |y|], c as [| |z|]; simpl;
    try reflexivity; try discriminate.
  rewrite !negb_involutive, !Qle_bool_iff. apply Qle_trans.
Qed.

Lemma float_leb_total (a b : float) :
  isna a = false -> isna b = false ->
  float_leb a b = true \/ float_leb b a = true.
Proof.
  destruct a as [| |x|], b as [| |y|]; simpl; try discriminate; auto.
  intros _ _. rewrite !negb_involutive, !Qle_bool_iff.
  destruct (Qlt_le_dec y x) as [H|H]; [right; apply Qlt_le_weak|left]; exact H.
Qed.

Lemma max_step_NaN_l (v : float) : max_step NaN v = v.
Proof. destruct v; reflexivity. Qed.

Lemma max_step_NaN_r (a : float) : max_step a NaN = a.
Proof. reflexivity. Qed.

(** Between two numbers [max_step] picks one that bounds both. *)
Lemma max_step_pick (a v : float) :
  isna a = false -> isna v = false ->
  (max_step a v = a \/ max_step a v = v)
  /\ float_leb a (max_step a v) = true
  /\ float_leb v (max_step a v) = true.
Proof.
  intros Ha Hv. unfold max_step. rewrite Hv, Ha.
  destruct (float_ltb a v) eqn:Hlt.
  - split; [right; reflexivity|]. split.
    + apply float_ltb_asym in Hlt.
      destruct a, v; simpl in *; try discriminate; try reflexivity;
        rewrite Hlt; reflexivity.
    + apply float_leb_refl, Hv.
  - split; [left; reflexivity|]. split.
    + apply float_leb_refl, Ha.
    + destruct a, v; simpl in *; try discriminate; try reflexivity;
        rewrite Hlt; reflexivity.
Qed.

(** The running maximum from a number [acc]: it is [acc] or one of the
    values, it is a number, and it bounds [acc] and every number among the
    values. *)
Lemma fold_max_from (l : list float) : forall acc,
  isna acc = false ->
  let m := fold_left max_step l acc in
  (m = acc \/ In m l)
  /\ float_leb acc m = true
  /\ (forall x, In x l -> isna x = false -> float_leb x m = true).
Proof.
  induction l as [|v l IH]; intros acc Hacc; simpl.
  - split; [left; reflexivity|]. split; [apply float_leb_refl, Hacc|].
    intros x [].
  - destruct (isna v) eqn:Hv.
    + assert (Hs : max_step acc v = acc) by (unfold max_step; rewrite Hv; reflexivity).
      rewrite Hs. destruct (IH acc Hacc) as (Hin & Hle & Hall).
      split; [destruct Hin; auto|]. split; [exact Hle|].
      intros x [Hx|Hx] Hxn; [subst; congruence|auto].
    + destruct (max_step_pick acc v Hacc Hv) as (Hpick & Hle1 & Hle2).
      assert (Hn : isna (max_step acc v) = false)
        by (destruct Hpick as [->| ->]; assumption).
      destruct (IH _ Hn) as (Hin & Hle & Hall).
      split.
      * destruct Hin as [Hin|Hin]; [|auto].
        rewrite Hin. destruct Hpick as [->| ->]; auto.
      * split; [eapply float_leb_trans; eassumption|].
        intros x [Hx|Hx] Hxn; [subst x; eapply float_leb_trans; eassumption|auto].
Qed.

(** [Series.max] skips missing values: over a group with no number it is
    [NaN]. *)
Lemma series_max_all_NaN (l : list float) :
  (forall x, In x l -> isna x = true) -> series_max l = NaN.
Proof.
  unfold series_max. induction l as [|v l IH]; intros H; simpl; [reflexivity|].
  assert (Hv : v = NaN) by (specialize (H v (or_introl eq_refl)); destruct v; (reflexivity || discriminate)).
  subst v. simpl. apply IH. intros x Hx. apply H. right. exact Hx.
Qed.

(** Over a group with a number, [Series.max] is one of the group's numbers
    and no number of the group is greater. *)
Lemma series_max_number (l : list float) :
  (exists x, In x l /\ isna x = false) ->
  In (series_max l) l
  /\ isna (series_max l) = false
  /\ (forall x, In x l -> isna x = false -> float_leb x (series_max l) = true).
Proof.
  unfold series_max. induction l as [|v l IH]; intros (x & Hx & Hxn).
  - destruct Hx.
  - simpl. rewrite max_step_NaN_l. destruct (isna v) eqn:Hv.
    + assert (v = NaN) by (destruct v; (reflexivity || discriminate)). subst v.
      destruct Hx as [Hx|Hx]; [subst x; discriminate|].
      destruct IH as (Hin & Hn & Hall); [exists x; auto|].
      split; [right; exact Hin|]. split; [exact Hn|].
      intros y [Hy|Hy] Hyn; [subst y; discriminate|auto].
    + destruct (fold_max_from l v Hv) as (Hin & Hle & Hall).
      split; [destruct Hin as [->|Hin]; [left; reflexivity|right; exact Hin]|].
      split; [apply float_leb_notna in Hle; tauto|].
      intros y [Hy|Hy] Hyn; [subst y; exact Hle|auto].
Qed.

(** ** Grouping *)

Lemma key_eqb_eq (a b : key) : key_eqb a b = true <-> a = b.
Proof.
  unfold key_eqb. destruct (key_eq_dec a b); split; intros H;
    congruence || reflexivity || discriminate.
Qed.

Lemma key_eqb_refl (a : key) : key_eqb a a = true.
Proof. apply key_eqb_eq. reflexivity. Qed.

Lemma key_eqb_sym (a b : key) : key_eqb a b = key_eqb b a.
Proof.
  unfold key_eqb. destruct (key_eq_dec a b), (key_eq_dec b a); congruence.
Qed.

Lemma find_group_agg_insert (k k' : key) (v : float) (gs : list (key * float)) :
  find_group k (agg_insert k' v gs)
  = if key_eq_dec k k' then opt_step (find_group k gs) v else find_group k gs.
Proof.
  induction gs as [|[k1 m] gs IH]; simpl.
  - destruct (key_eq_dec k k'); reflexivity.
  - destruct (key_eq_dec k' k1) as [E1|N1]; simpl.
    + destruct (key_eq_dec k k1), (key_eq_dec k k'); try congruence; reflexivity.
    + rewrite IH.
      destruct (key_eq_dec k k1), (key_eq_dec k k'); try congruence; reflexivity.
Qed.

Lemma group_rates_cons (k : key) (r : Labor) (df : list Labor) :
  group_rates k (r :: df)
  = if key_eq_dec k (key_of r) then new_billRate r :: group_rates k df
    else group_rates k df.
Proof.
  unfold group_rates, key_eqb. simpl.
  destruct (key_eq_dec (key_of r) k), (key_eq_dec k (key_of r));
    try congruence; reflexivity.
Qed.

Lemma find_group_aggregate (df : list Labor) : forall gs k,
  find_group k (aggregate df gs)
  = fold_left opt_step (group_rates k df) (find_group k gs).
Proof.
  unfold aggregate.
  induction df as [|r df IH]; intros gs k; simpl; [reflexivity|].
  rewrite IH, find_group_agg_insert, group_rates_cons.
  destruct (key_eq_dec k (key_of r)); reflexivity.
Qed.

Lemma fold_opt_step_Some (l : list float) : forall m,
  fold_left opt_step l (Some m) = Some (fold_left max_step l m).
Proof.
  induction l as [|v l IH]; intros m; simpl; [reflexivity|apply IH].
Qed.

Lemma fold_opt_step_None (l : list float) :
  fold_left opt_step l None
  = match l with [] => None | _ :: _ => Some (series_max l) end.
Proof.
  destruct l as [|v l]; simpl; [reflexivity|].
  unfold series_max. simpl. rewrite max_step_NaN_l. apply fold_opt_step_Some.
Qed.

Lemma In_keys_find_group (k : key) (gs : list (key * float)) :
  In k (map fst gs) <-> find_group k gs <> None.
Proof.
  induction gs as [|[k1 m] gs IH]; simpl.
  - split; [intros []|congruence].
  - destruct (key_eq_dec k k1) as [E|N].
    + split; [discriminate|auto].
    + rewrite <- IH. split; [intros [H|H]; congruence || exact H|auto].
Qed.

Lemma NoDup_agg_insert (k : key) (v : float) (gs : list (key * float)) :
  NoDup (map fst gs) -> NoDup (map fst (agg_insert k v gs)).
Proof.
  induction gs as [|[k1 m] gs IH]; simpl; intros H.
  - constructor; [intros []|constructor].
  - inversion H as [|? ? Hnin Hnd]; subst.
    destruct (key_eq_dec k k1) as [E|N]; simpl; [constructor; assumption|].
    constructor; [|apply IH, Hnd].
    rewrite In_keys_find_group, find_group_agg_insert.
    destruct (key_eq_dec k1 k); [congruence|].
    rewrite <- In_keys_find_group. exact Hnin.
Qed.

Lemma NoDup_aggregate (df : list Labor) : forall gs,
  NoDup (map fst gs) -> NoDup (map fst (aggregate df gs)).
Proof.
  unfold aggregate. induction df as [|r df IH]; intros gs H; simpl; [exact H|].
  apply IH, NoDup_agg_insert, H.
Qed.

Lemma In_find_group (gs : list (key * float)) (k : key) (m : float) :
  NoDup (map fst gs) -> (In (k, m) gs <-> find_group k gs = Some m).
Proof.
  induction gs as [|[k1 m1] gs IH]; simpl; intros H.
  - split; [intros []|discriminate].
  - inversion H as [|? ? Hnin Hnd]; subst.
    destruct (key_eq_dec k k1) as [E|N].
    + subst k1. split.
      * intros [Heq|Hin]; [congruence|].
        exfalso. apply Hnin. change k with (fst (k, m)). apply in_map, Hin.
      * intros Heq. left. congruence.
    + rewrite <- (IH Hnd). split; [intros [Heq|Hin]; congruence || exact Hin|auto].
Qed.

Lemma insert_group_perm (g : key * float) (l : list (key * float)) :
  Permutation (insert_group g l) (g :: l).
Proof.
  induction l as [|h t IH]; simpl; [reflexivity|].
  destruct (key_leb (fst g) (fst h)); [reflexivity|].
  rewrite IH. apply perm_swap.
Qed.

Lemma sort_groups_perm (l : list (key * float)) : Permutation (sort_groups l) l.
Proof.
  induction l as [|g l IH]; simpl; [reflexivity|].
  rewrite insert_group_perm. constructor. exact IH.
Qed.

Lemma key_of_group_row (g : key * float) : key_of (group_row g) = fst g.
Proof. destruct g as [[[[[p j] n] b] e] m]. reflexivity. Qed.

Lemma group_row_eta (r : Labor) : group_row (key_of r, new_billRate r) = r.
Proof. destruct r as [p j n b e m []]. reflexivity. Qed.

Lemma rate_group_row (g : key * float) : new_billRate (group_row g) = snd g.
Proof. destruct g as [[[[[p j] n] b] e] m]. reflexivity. Qed.

(** Among rows with complete keys, the rows of a complete key are the rows
    of that key. *)
Lemma group_rates_filter_notna (k : key) (df : list Labor) :
  group_rates k (filter (fun r => key_notna (key_of r)) df)
  = if key_notna k then group_rates k df else [].
Proof.
  induction df as [|r df IH]; cbn [filter].
  - destruct (key_notna k); reflexivity.
  - destruct (key_notna (key_of r)) eqn:Hr.
    + rewrite !group_rates_cons, IH.
      destruct (key_eq_dec k (key_of r)) as [E|N], (key_notna k) eqn:Hk;
        try reflexivity. congruence.
    + rewrite group_rates_cons, IH.
      destruct (key_eq_dec k (key_of r)) as [E|N]; [|reflexivity].
      subst k. rewrite Hr. reflexivity.
Qed.

(** No key occurs twice in the grouped table. *)
Lemma groupby_max_NoDup (df : list Labor) : NoDup (map key_of (groupby_max df)).
Proof.
  unfold groupby_max. rewrite map_map.
  rewrite (map_ext _ fst key_of_group_row).
  eapply Permutation_NoDup.
  - apply Permutation_map. symmetry. apply sort_groups_perm.
  - apply NoDup_aggregate. constructor.
Qed.

(** The rows of the grouped table: one for every complete key that has rows,
    with the maximum of their rates. *)
Lemma groupby_max_In (df : list Labor) (r : Labor) :
  In r (groupby_max df)
  <-> key_notna (key_of r) = true
      /\ group_rates (key_of r) df <> []
      /\ new_billRate r = series_max (group_rates (key_of r) df).
Proof.
  unfold groupby_max.
  set (G := aggregate (filter (fun r => key_notna (key_of r)) df) []).
  assert (HG : NoDup (map fst G)) by (apply NoDup_aggregate; constructor).
  assert (Hin : In r (map group_row (sort_groups G))
                <-> In (key_of r, new_billRate r) G).
  { rewrite in_map_iff. split.
    - intros (g & <- & Hg). rewrite key_of_group_row, rate_group_row.
      rewrite <- surjective_pairing.
      eapply Permutation_in; [apply sort_groups_perm|exact Hg].
    - intros Hg. exists (key_of r, new_billRate r). split; [apply group_row_eta|].
      eapply Permutation_in; [symmetry; apply sort_groups_perm|exact Hg]. }
  rewrite Hin, (@In_find_group G (key_of r) (new_billRate r) HG). unfold G.
  rewrite find_group_aggregate. simpl find_group.
  rewrite fold_opt_step_None, group_rates_filter_notna.
  destruct (key_notna (key_of r)).
  - destruct (group_rates (key_of r) df) as [|v l] eqn:Hg.
    + split; [discriminate|intros (_ & H & _); congruence].
    + split.
      * intros H. split; [reflexivity|]. split; [discriminate|congruence].
      * intros (_ & _ & H). congruence.
  - split; [discriminate|intros (H & _); discriminate].
Qed.

(** ** The merge *)

Lemma filter_none {A} (p : A -> bool) (l : list A) :
  (forall x, In x l -> p x = false) -> filter p l = [].
Proof.
  induction l as [|a l IH]; intros H; simpl; [reflexivity|].
  rewrite (H a (or_introl eq_refl)). apply IH. intros x Hx. apply H. right. exact Hx.
Qed.

(** In a table without repeated keys at most one row has a given key. *)
Lemma filter_unique_key (k : key) (right : list Labor) :
  NoDup (map key_of right) ->
  filter (fun r => key_eqb k (key_of r)) right
  = match find (fun r => key_eqb k (key_of r)) right with
    | Some r => [r]
    | None => []
    end.
Proof.
  induction right as [|r right IH]; intros H; simpl; [reflexivity|].
  inversion H as [|? ? Hnin Hnd]; subst.
  destruct (key_eqb k (key_of r)) eqn:E.
  - f_equal. apply filter_none. intros x Hx.
    destruct (key_eqb k (key_of x)) eqn:Ex; [|reflexivity].
    apply key_eqb_eq in E. apply key_eqb_eq in Ex.
    exfalso. apply Hnin. rewrite <- E, Ex. apply in_map, Hx.
  - apply IH, Hnd.
Qed.

(** Against a table without repeated keys the left merge keeps every left
    row once, in place, with the rate of its key. *)
Lemma merge_left_unique (left : list Planned) (right : list Labor) :
  NoDup (map key_of right) ->
  merge_left left right = map (fun l => (l, lookup_rate (key_of l) right)) left.
Proof.
  intros H. unfold merge_left.
  rewrite (flat_map_ext _ (fun l => [(l, lookup_rate (key_of l) right)])).
  - induction left as [|l left IH]; simpl; [reflexivity|]. rewrite IH. reflexivity.
  - intros l. unfold lookup_rate. rewrite (filter_unique_key (key_of l) right H).
    destruct (find (fun r => key_eqb (key_of l) (key_of r)) right); reflexivity.
Qed.

(** The reconciled table, row by row. *)
Lemma reconcile_rows (B : list Planned) (O : list Labor) :
  reconcile B O
  = map (fun b => set_rate b
                    (combine_first (lookup_rate (key_of b) (groupby_max O))
                                   (billRate b))) B.
Proof.
  unfold reconcile, reconcile_with.
  rewrite (merge_left_unique B (groupby_max O) (groupby_max_NoDup O)), map_map.
  reflexivity.
Qed.

Lemma key_of_set_rate (b : Planned) (v : float) : key_of (set_rate b v) = key_of b.
Proof. reflexivity. Qed.

Lemma set_rate_billRate (b : Planned) : set_rate b (billRate b) = b.
Proof. destruct b. reflexivity. Qed.

Lemma lookup_rate_nil (k : key) : lookup_rate k [] = NaN.
Proof. reflexivity. Qed.

(** The rate a grouped table attaches to a key: the maximum of the key's
    rates when the key is complete and has rows, [NaN] otherwise. *)
Lemma lookup_rate_groupby (k : key) (O : list Labor) :
  lookup_rate k (groupby_max O)
  = if key_notna k then series_max (group_rates k O) else NaN.
Proof.
  unfold lookup_rate.
  destruct (find (fun r => key_eqb k (key_of r)) (groupby_max O)) as [r|] eqn:F.
  - apply find_some in F. destruct F as [Hin Hk].
    apply key_eqb_eq in Hk. subst k.
    apply groupby_max_In in Hin. destruct Hin as (Hn & _ & Hm).
    rewrite Hn. exact Hm.
  - destruct (key_notna k) eqn:Hn; [|reflexivity].
    destruct (group_rates k O) as [|v l] eqn:Hg; [reflexivity|].
    exfalso.
    destruct k as [[[[p j] n] b] e].
    pose (r := group_row ((p, j, n, b, e), series_max (v :: l))).
    assert (Hr : In r (groupby_max O)).
    { apply groupby_max_In. unfold r. rewrite key_of_group_row, rate_group_row.
      simpl fst. simpl snd. rewrite Hn, Hg.
      split; [reflexivity|]. split; [discriminate|reflexivity]. }
    apply (find_none _ _ F) in Hr. unfold r in Hr.
    rewrite key_of_group_row in Hr. simpl fst in Hr.
    rewrite key_eqb_refl in Hr. discriminate.
Qed.

(** ** Column passes *)

Lemma mapM_Ok_iff {A B} (f : A -> result B) (l : list A) : forall l',
  mapM f l = Ok l' <-> Forall2 (fun a b => f a = Ok b) l l'.
Proof.
  induction l as [|a l IH]; intros l'; simpl.
  - split; intros H; [injection H as <-; constructor|inversion H; reflexivity].
  - destruct (f a) as [b|e] eqn:Fa; simpl.
    + destruct (mapM f l) as [bs|e] eqn:Fl; simpl.
      * split; intros H.
        -- injection H as <-. constructor; [exact Fa|apply IH; reflexivity].
        -- inversion H as [|? b' ? bs' Hb Hbs]; subst.
           apply IH in Hbs. congruence.
      * split; intros H; [discriminate|].
        inversion H as [|? b' ? bs' Hb Hbs]; subst. apply IH in Hbs. discriminate.
    + split; intros H; [discriminate|].
      inversion H as [|? b' ? bs' Hb Hbs]; subst. congruence.
Qed.

Lemma mapM_Raise {A B} (f : A -> result B) (l : list A) (e : exn) :
  mapM f l = Raise e -> exists a, In a l /\ f a = Raise e.
Proof.
  induction l as [|a l IH]; simpl; [discriminate|].
  destruct (f a) as [b|e'] eqn:Fa; simpl.
  - destruct (mapM f l) as [bs|e''] eqn:Fl; simpl; [discriminate|].
    intros H. injection H as ->. destruct IH as (x & Hx & Hf); [reflexivity|].
    exists x. auto.
  - intros H. injection H as ->. exists a. auto.
Qed.

Lemma Forall2_iff {A B} (R S : A -> B -> Prop) (l : list A) (l' : list B) :
  (forall a b, R a b <-> S a b) -> (Forall2 R l l' <-> Forall2 S l l').
Proof.
  intros H. split; apply Forall2_impl; intros a b; apply H.
Qed.

Lemma Forall2_comp {A B C} (R : A -> B -> Prop) (S : B -> C -> Prop)
    (T : A -> C -> Prop) (l1 : list A) : forall (l2 : list B) (l3 : list C),
  Forall2 R l1 l2 -> Forall2 S l2 l3 ->
  (forall a b c, R a b -> S b c -> T a c) -> Forall2 T l1 l3.
Proof.
  induction l1 as [|a l1 IH]; intros l2 l3 H1 H2 H.
  - inversion H1; subst. inversion H2; subst. constructor.
  - inversion H1; subst. inversion H2; subst. constructor; eauto.
Qed.

Lemma Forall2_In_r {A B} (R : A -> B -> Prop) (l : list A) (l' : list B) (b : B) :
  Forall2 R l l' -> In b l' -> exists a, In a l /\ R a b.
Proof.
  induction 1 as [|x y l l' Hxy _ IH]; simpl; [intros []|].
  intros [->|Hb]; [exists x; auto|].
  destruct (IH Hb) as (a & Ha & Hab). exists a. auto.
Qed.

Lemma Forall2_In_l {A B} (R : A -> B -> Prop) (l : list A) (l' : list B) (a : A) :
  Forall2 R l l' -> In a l -> exists b, In b l' /\ R a b.
Proof.
  induction 1 as [|x y l l' Hxy _ IH]; simpl; [intros []|].
  intros [->|Ha]; [exists y; auto|].
  destruct (IH Ha) as (b & Hb & Hab). exists b. auto.
Qed.

(** A pass succeeds exactly when its conversion reads every cell of its
    column; the other cells are carried over. *)
Ltac pass_Ok :=
  intros; unfold converted;
  unfold assign_person_key, assign_project_key, assign_beginDate,
    assign_endDate, assign_rate;
  rewrite mapM_Ok_iff; apply Forall2_iff; intros r n;
  split;
  [ match goal with |- bind ?m _ = _ -> _ => destruct m; simpl end;
    intros H; [injection H as <-; simpl; tauto|discriminate]
  | intros (H1 & H2 & H3 & H4 & H5 & H6 & H7); destruct n; simpl in *;
    first [rewrite H1|rewrite H2|rewrite H4|rewrite H5|rewrite H6]; simpl;
    congruence ].

Lemma assign_person_key_Ok {P P' J B E V X} (f : P -> result P')
    (df : list (Row P J B E V X)) (df' : list (Row P' J B E V X)) :
  assign_person_key f df = Ok df' <-> Forall2 (converted f Ok Ok Ok Ok) df df'.
Proof. pass_Ok. Qed.

Lemma assign_project_key_Ok {P J J' B E V X} (f : J -> result J')
    (df : list (Row P J B E V X)) (df' : list (Row P J' B E V X)) :
  assign_project_key f df = Ok df' <-> Forall2 (converted Ok f Ok Ok Ok) df df'.
Proof. pass_Ok. Qed.

Lemma assign_beginDate_Ok {P J B B' E V X} (f : B -> result B')
    (df : list (Row P J B E V X)) (df' : list (Row P J B' E V X)) :
  assign_beginDate f df = Ok df' <-> Forall2 (converted Ok Ok f Ok Ok) df df'.
Proof. pass_Ok. Qed.

Lemma assign_endDate_Ok {P J B E E' V X} (f : E -> result E')
    (df : list (Row P J B E V X)) (df' : list (Row P J B E' V X)) :
  assign_endDate f df = Ok df' <-> Forall2 (converted Ok Ok Ok f Ok) df df'.
Proof. pass_Ok. Qed.

Lemma assign_rate_Ok {P J B E V V' X} (f : V -> result V')
    (df : list (Row P J B E V X)) (df' : list (Row P J B E V' X)) :
  assign_rate f df = Ok df' <-> Forall2 (converted Ok Ok Ok Ok f) df df'.
Proof. pass_Ok. Qed.

(** A pass raises what its conversion raises on a cell of its column. *)
Ltac pass_Raise :=
  unfold assign_person_key, assign_project_key, assign_beginDate,
    assign_endDate, assign_rate;
  intros H; apply mapM_Raise in H; destruct H as (r & Hr & H);
  exists r; split; [exact Hr|];
  match type of H with bind ?m _ = _ => destruct m; simpl in H end;
  [discriminate|congruence].

Lemma assign_person_key_Raise {P P' J B E V X} (f : P -> result P')
    (df : list (Row P J B E V X)) (e : exn) :
  assign_person_key f df = Raise e ->
  exists r, In r df /\ f (person_key r) = Raise e.
Proof. pass_Raise. Qed.

Lemma assign_project_key_Raise {P J J' B E V X} (f : J -> result J')
    (df : list (Row P J B E V X)) (e : exn) :
  assign_project_key f df = Raise e ->
  exists r, In r df /\ f (project_key r) = Raise e.
Proof. pass_Raise. Qed.

Lemma assign_beginDate_Raise {P J B B' E V X} (f : B -> result B')
    (df : list (Row P J B E V X)) (e : exn) :
  assign_beginDate f df = Raise e ->
  exists r, In r df /\ f (beginDate r) = Raise e.
Proof. pass_Raise. Qed.

Lemma assign_endDate_Raise {P J B E E' V X} (f : E -> result E')
    (df : list (Row P J B E V X)) (e : exn) :
  assign_endDate f df = Raise e ->
  exists r, In r df /\ f (endDate r) = Raise e.
Proof. pass_Raise. Qed.

Lemma assign_rate_Raise {P J B E V V' X} (f : V -> result V')
    (df : list (Row P J B E V X)) (e : exn) :
  assign_rate f df = Raise e ->
  exists r, In r df /\ f (rate r) = Raise e.
Proof. pass_Raise. Qed.

(** ** The conversions of the handler *)

Section HandlerProperties.

Variable parse_int : string -> option Z.
Variable parse_float : string -> option float.
Variable parse_datetime : string -> option Timestamp.

Ltac pull HF :=
  match goal with
  | Hin : In _ _ |- _ =>
      let b := fresh "r" in
      let Hb := fresh "Hin" in
      let Hc := fresh "Hc" in
      destruct (@Forall2_In_r _ _ _ _ _ _ HF Hin) as (b & Hb & Hc);
      clear Hin; unfold converted in Hc;
      destruct Hc as (? & ? & ? & ? & ? & ? & ?)
  end.

(** When no conversion raises, every row of the planned matrix and every
    complete row of the labor-category table is converted in place. *)
Lemma normalize_Ok (pm : list RawPlanned) (lc : list RawLabor)
    (pm' : list Planned) (lc' : list Labor) :
  normalize parse_int parse_float parse_datetime pm lc = Ok (pm', lc') ->
  Forall2 (planned_converted parse_int parse_datetime) pm pm'
  /\ Forall2 (labor_converted parse_int parse_float parse_datetime) (dropna lc) lc'.
Proof.
  unfold normalize.
  destruct (assign_person_key (astype_Int64 parse_int) (dropna lc)) as [lc1|] eqn:P1; cbn [bind]; [|discriminate].
  destruct (assign_project_key (astype_Int64 parse_int) lc1) as [lc2|] eqn:P2; cbn [bind]; [|discriminate].
  destruct (assign_person_key (astype_Int64 parse_int) pm) as [pm1|] eqn:P3; cbn [bind]; [|discriminate].
  destruct (assign_project_key (astype_Int64 parse_int) pm1) as [pm2|] eqn:P4; cbn [bind]; [|discriminate].
  destruct (assign_rate (to_float parse_float) lc2) as [lc3|] eqn:P5; cbn [bind]; [|discriminate].
  destruct (assign_beginDate (to_datetime parse_datetime) lc3) as [lc4|] eqn:P6; cbn [bind]; [|discriminate].
  destruct (assign_endDate (to_datetime parse_datetime) lc4) as [lc5|] eqn:P7; cbn [bind]; [|discriminate].
  destruct (assign_beginDate (to_datetime parse_datetime) pm2) as [pm3|] eqn:P8; cbn [bind]; [|discriminate].
  destruct (assign_endDate (to_datetime parse_datetime) pm3) as [pm4|] eqn:P9; cbn [bind]; [|discriminate].
  intros H. injection H as <- <-.
  apply assign_person_key_Ok in P1, P3. apply assign_project_key_Ok in P2, P4.
  apply assign_rate_Ok in P5. apply assign_beginDate_Ok in P6, P8.
  apply assign_endDate_Ok in P7, P9.
  unfold planned_converted, labor_converted.
  split.
  - assert (Q1 : Forall2 (converted (astype_Int64 parse_int) (astype_Int64 parse_int) Ok Ok Ok) pm pm2)
      by (apply (Forall2_comp _ P3 P4); unfold converted; intuition congruence).
    assert (Q2 : Forall2 (converted (astype_Int64 parse_int) (astype_Int64 parse_int)
                            (to_datetime parse_datetime) Ok Ok) pm pm3)
      by (apply (Forall2_comp _ Q1 P8); unfold converted; intuition congruence).
    apply (Forall2_comp _ Q2 P9); unfold converted; intuition congruence.
  - assert (Q1 : Forall2 (converted (astype_Int64 parse_int) (astype_Int64 parse_int) Ok Ok Ok) (dropna lc) lc2)
      by (apply (Forall2_comp _ P1 P2); unfold converted; intuition congruence).
    assert (Q2 : Forall2 (converted (astype_Int64 parse_int) (astype_Int64 parse_int) Ok Ok
                            (to_float parse_float)) (dropna lc) lc3)
      by (apply (Forall2_comp _ Q1 P5); unfold converted; intuition congruence).
    assert (Q3 : Forall2 (converted (astype_Int64 parse_int) (astype_Int64 parse_int)
                            (to_datetime parse_datetime) Ok
                            (to_float parse_float)) (dropna lc) lc4)
      by (apply (Forall2_comp _ Q2 P6); unfold converted; intuition congruence).
    apply (Forall2_comp _ Q3 P7); unfold converted; intuition congruence.
Qed.
(** When a conversion raises, a cell of the planned matrix or of a complete
    labor-category row raised that exception. *)
Lemma normalize_Raise (pm : list RawPlanned) (lc : list RawLabor) (e : exn) :
  normalize parse_int parse_float parse_datetime pm lc = Raise e ->
  (exists r, In r pm /\ key_or_date_raises parse_int parse_datetime r e)
  \/ (exists r, In r (dropna lc)
                /\ (key_or_date_raises parse_int parse_datetime r e
                    \/ to_float parse_float (rate r) = Raise e)).
Proof.
  unfold normalize, key_or_date_raises.
  destruct (assign_person_key (astype_Int64 parse_int) (dropna lc)) as [lc1|] eqn:P1; cbn [bind].
  2:{ intros H. injection H as <-. apply assign_person_key_Raise in P1.
      destruct P1 as (r & Hin & Hr). right. exists r. tauto. }
  apply assign_person_key_Ok in P1.
  destruct (assign_project_key (astype_Int64 parse_int) lc1) as [lc2|] eqn:P2; cbn [bind].
  2:{ intros H. injection H as <-. apply assign_project_key_Raise in P2.
      destruct P2 as (r & Hin & Hr). pull P1.
      right. exists r0. split; [assumption|]. left. right. left. congruence. }
  apply assign_project_key_Ok in P2.
  destruct (assign_person_key (astype_Int64 parse_int) pm) as [pm1|] eqn:P3; cbn [bind].
  2:{ intros H. injection H as <-. apply assign_person_key_Raise in P3.
      destruct P3 as (r & Hin & Hr). left. exists r. tauto. }
  apply assign_person_key_Ok in P3.
  destruct (assign_project_key (astype_Int64 parse_int) pm1) as [pm2|] eqn:P4; cbn [bind].
  2:{ intros H. injection H as <-. apply assign_project_key_Raise in P4.
      destruct P4 as (r & Hin & Hr). pull P3.
      left. exists r0. split; [assumption|]. right. left. congruence. }
  apply assign_project_key_Ok in P4.
  destruct (assign_rate (to_float parse_float) lc2) as [lc3|] eqn:P5; cbn [bind].
  2:{ intros H. injection H as <-. apply assign_rate_Raise in P5.
      destruct P5 as (r & Hin & Hr). pull P2. pull P1.
      right. exists r1. split; [assumption|]. right. congruence. }
  apply assign_rate_Ok in P5.
  destruct (assign_beginDate (to_datetime parse_datetime) lc3) as [lc4|] eqn:P6; cbn [bind].
  2:{ intros H. injection H as <-. apply assign_beginDate_Raise in P6.
      destruct P6 as (r & Hin & Hr). pull P5. pull P2. pull P1.
      right. exists r2. split; [assumption|]. left. right. right. left. congruence. }
  apply assign_beginDate_Ok in P6.
  destruct (assign_endDate (to_datetime parse_datetime) lc4) as [lc5|] eqn:P7; cbn [bind].
  2:{ intros H. injection H as <-. apply assign_endDate_Raise in P7.
      destruct P7 as (r & Hin & Hr). pull P6. pull P5. pull P2. pull P1.
      right. exists r3. split; [assumption|]. left. right. right. right. congruence. }
  destruct (assign_beginDate (to_datetime parse_datetime) pm2) as [pm3|] eqn:P8; cbn [bind].
  2:{ intros H. injection H as <-. apply assign_beginDate_Raise in P8.
      destruct P8 as (r & Hin & Hr). pull P4. pull P3.
      left. exists r1. split; [assumption|]. right. right. left. congruence. }
  apply assign_beginDate_Ok in P8.
  destruct (assign_endDate (to_datetime parse_datetime) pm3) as [pm4|] eqn:P9; cbn [bind].
  2:{ intros H. injection H as <-. apply assign_endDate_Raise in P9.
      destruct P9 as (r & Hin & Hr). pull P8. pull P4. pull P3.
      left. exists r2. split; [assumption|]. right. right. right. congruence. }
  discriminate.
Qed.

Lemma Forall2_map_r {A B C} (R : A -> C -> Prop) (f : B -> C) (l : list A) (l' : list B) :
  Forall2 (fun a b => R a (f b)) l l' -> Forall2 R l (map f l').
Proof. induction 1; simpl; constructor; assumption. Qed.

(** A request that passes the conversions ends in the row-count test on the
    reconciled table. *)
Lemma update_bill_rate_with_Ok
    (join : list Planned -> list Labor -> list (Planned * float))
    (pm : list RawPlanned) (lc : list RawLabor) (pm' : list Planned) (lc' : list Labor) :
  normalize parse_int parse_float parse_datetime pm lc = Ok (pm', lc') ->
  update_bill_rate_with parse_int parse_float parse_datetime join pm lc
  = if negb (Nat.eqb (List.length (reconcile_with join pm' lc')) (List.length pm'))
    then mkOutcome
           (Response (RowCountMismatch (List.length pm')
                        (List.length (reconcile_with join pm' lc'))) 500) None
    else mkOutcome (Response UpdatedAndUploaded 200) (Some (reconcile_with join pm' lc')).
Proof. intros H. unfold update_bill_rate_with. rewrite H. reflexivity. Qed.

(** A request whose conversions raise answers 500 with the exception and
    writes nothing. *)
Lemma update_bill_rate_with_Raise
    (join : list Planned -> list Labor -> list (Planned * float))
    (pm : list RawPlanned) (lc : list RawLabor) (e : exn) :
  normalize parse_int parse_float parse_datetime pm lc = Raise e ->
  update_bill_rate_with parse_int parse_float parse_datetime join pm lc
  = mkOutcome (Response (ErrorProcessingRequest e) 500) None.
Proof. intros H. unfold update_bill_rate_with. rewrite H. reflexivity. Qed.

Lemma reconcile_length (B : list Planned) (O : list Labor) :
  List.length (reconcile B O) = List.length B.
Proof. rewrite reconcile_rows. apply length_map. Qed.

(** With pandas' merge the row-count test passes. *)
Lemma update_bill_rate_Ok (pm : list RawPlanned) (lc : list RawLabor)
    (pm' : list Planned) (lc' : list Labor) :
  normalize parse_int parse_float parse_datetime pm lc = Ok (pm', lc') ->
  update_bill_rate parse_int parse_float parse_datetime pm lc
  = mkOutcome (Response UpdatedAndUploaded 200) (Some (reconcile pm' lc')).
Proof.
  intros H. unfold update_bill_rate.
  rewrite (update_bill_rate_with_Ok merge_left pm lc H).
  fold reconcile. rewrite reconcile_length, Nat.eqb_refl. reflexivity.
Qed.

(** ** The claims *)

(** C1 (baseline preservation).  For every baseline table [B] and override
    table [O] the reconciled table has exactly [length B] rows, and row [i]
    of the output is row [i] of the baseline in every column but [billRate]:
    no row is dropped, duplicated or moved.  For the handler: the table it
    uploads has one row per row of planned_matrix.csv, each the conversion
    of the row at its position, up to [billRate]. *)
Theorem baseline_preservation :
  (forall (B : list Planned) (O : list Labor),
     List.length (reconcile B O) = List.length B
     /\ map other_columns (reconcile B O) = map other_columns B
     /\ forall i b, nth_error B i = Some b ->
          exists u, nth_error (reconcile B O) i = Some u
                    /\ u = set_rate b (billRate u))
  /\ (forall (pm : list RawPlanned) (lc : list RawLabor) (T : list Planned),
        uploaded (update_bill_rate parse_int parse_float parse_datetime pm lc) = Some T ->
        List.length T = List.length pm
        /\ Forall2 (fun raw u =>
                      planned_converted parse_int parse_datetime raw (set_rate u (billRate raw)))
                   pm T).
Proof.
  split.
  - intros B O. split; [apply reconcile_length|]. rewrite reconcile_rows. split.
    + rewrite map_map. apply map_ext. intros b. reflexivity.
    + intros i b Hb. eexists. split.
      * apply map_nth_error, Hb.
      * reflexivity.
  - intros pm lc T.
    destruct (normalize parse_int parse_float parse_datetime pm lc) as [[pm' lc']|e] eqn:N.
    + rewrite (update_bill_rate_Ok pm lc N). simpl. intros H. injection H as <-.
      apply normalize_Ok in N. destruct N as [Hpm _].
      split.
      * rewrite reconcile_length. symmetry. eapply Forall2_length, Hpm.
      * rewrite reconcile_rows. apply Forall2_map_r.
        eapply Forall2_impl; [|exact Hpm].
        intros raw b Hc. unfold planned_converted, converted in *. simpl.
        intuition reflexivity.
    + unfold update_bill_rate. rewrite (update_bill_rate_with_Raise merge_left pm lc N).
      simpl. discriminate.
Qed.

(** C2 (substitution rule).  The joined table holds every baseline row once,
    with the grouped override rate of its key attached ([NaN] when there is
    none); for every joined row the output [billRate] is the attached rate
    when it is not missing, zero included, and the baseline [billRate]
    otherwise. *)
Theorem substitution_rule (B : list Planned) (O : list Labor) :
  merge_left B (groupby_max O)
  = map (fun b => (b, lookup_rate (key_of b) (groupby_max O))) B
  /\ map (fun u => billRate u) (reconcile B O)
     = map (fun row => match snd row with
                       | NaN => billRate (fst row)
                       | nb => nb
                       end)
           (merge_left B (groupby_max O))
  /\ (forall i b, nth_error B i = Some b ->
        exists u, nth_error (reconcile B O) i = Some u
                  /\ billRate u
                     = match lookup_rate (key_of b) (groupby_max O) with
                       | NaN => billRate b
                       | nb => nb
                       end)
  /\ (forall k, lookup_rate k (groupby_max O)
                = if key_notna k then series_max (group_rates k O) else NaN)
  /\ (forall old, combine_first (Fin 0) old = Fin 0).
Proof.
  split; [apply merge_left_unique, groupby_max_NoDup|].
  split.
  { unfold reconcile, reconcile_with. rewrite map_map. apply map_ext.
    intros [b nb]. simpl. destruct nb; reflexivity. }
  split.
  { intros i b Hb. rewrite reconcile_rows. eexists. split.
    - apply map_nth_error, Hb.
    - simpl. destruct (lookup_rate (key_of b) (groupby_max O)); reflexivity. }
  split; [intros k; apply lookup_rate_groupby|reflexivity].
Qed.

(** C3 (max-collapse deduplication).  In the grouped override table no key
    occurs twice; every complete key that has rows in the override table
    survives as exactly one row, whose [new_billRate] is the maximum of the
    rates of that key's rows; no other row survives.  The maximum of a group
    is one of its rates and no rate of the group is greater.  Two rows of one
    key with rates 100 and 150 collapse to one row with rate 150. *)
Theorem max_collapse (O : list Labor) :
  NoDup (map key_of (groupby_max O))
  /\ (forall k, key_notna k = true -> group_rates k O <> [] ->
        count_occ key_eq_dec (map key_of (groupby_max O)) k = 1%nat
        /\ exists r, In r (groupby_max O) /\ key_of r = k
                     /\ new_billRate r = series_max (group_rates k O))
  /\ (forall r, In r (groupby_max O) ->
        key_notna (key_of r) = true
        /\ group_rates (key_of r) O <> []
        /\ new_billRate r = series_max (group_rates (key_of r) O))
  /\ (forall l, (exists x, In x l /\ isna x = false) ->
        In (series_max l) l
        /\ isna (series_max l) = false
        /\ forall x, In x l -> isna x = false -> float_leb x (series_max l) = true)
  /\ (forall k, key_notna k = true ->
        groupby_max [group_row (k, Fin 100); group_row (k, Fin 150)]
        = [group_row (k, Fin 150)]).
Proof.
  split; [apply groupby_max_NoDup|].
  split.
  { intros k Hk Hg.
    pose (r := group_row (k, series_max (group_rates k O))).
    assert (Hr : In r (groupby_max O)).
    { apply groupby_max_In. unfold r. rewrite key_of_group_row, rate_group_row.
      simpl. auto. }
    split.
    - apply NoDup_count_occ'; [apply groupby_max_NoDup|].
      apply in_map_iff. exists r. split; [apply key_of_group_row|exact Hr].
    - exists r. split; [exact Hr|]. unfold r.
      rewrite key_of_group_row, rate_group_row. auto. }
  split; [intros r; apply groupby_max_In|].
  split; [apply series_max_number|].
  intros k Hk. unfold groupby_max. cbn [filter].
  rewrite !key_of_group_row. cbn [fst]. rewrite Hk.
  unfold aggregate. cbn [fold_left]. rewrite !key_of_group_row, !rate_group_row.
  cbn [fst snd agg_insert]. destruct (key_eq_dec k k) as [_|N]; [|congruence].
  reflexivity.
Qed.

(** C7 (no-override passthrough).  With an empty override table the
    reconciled table is the baseline itself, row for row; the handler then
    uploads the converted planned matrix unchanged. *)
Theorem no_override_passthrough :
  (forall B : list Planned, reconcile B [] = B)
  /\ (forall (pm : list RawPlanned) (pm' : list Planned) (lc' : list Labor),
        normalize parse_int parse_float parse_datetime pm [] = Ok (pm', lc') ->
        update_bill_rate parse_int parse_float parse_datetime pm []
        = mkOutcome (Response UpdatedAndUploaded 200) (Some pm')).
Proof.
  assert (H : forall B : list Planned, reconcile B [] = B).
  { intros B. rewrite reconcile_rows. rewrite <- (map_id B) at 2.
    apply map_ext. intros b. cbn. apply set_rate_billRate. }
  split; [exact H|].
  intros pm pm' lc' N. rewrite (update_bill_rate_Ok pm [] N).
  apply normalize_Ok in N. destruct N as [_ Hlc]. inversion Hlc; subst.
  rewrite H. reflexivity.
Qed.

(** C8 (idempotence).  Reconciling the output of a reconciliation again with
    the same overrides changes nothing: the [billRate] column, and with it
    the whole table, is that of the first application. *)
Theorem reconcile_idempotent (B : list Planned) (O : list Labor) :
  map (fun u => billRate u) (reconcile (reconcile B O) O)
  = map (fun u => billRate u) (reconcile B O)
  /\ reconcile (reconcile B O) O = reconcile B O.
Proof.
  assert (H : reconcile (reconcile B O) O = reconcile B O).
  { rewrite (reconcile_rows (reconcile B O) O), (reconcile_rows B O), map_map.
    apply map_ext. intros b. rewrite key_of_set_rate.
    destruct (lookup_rate (key_of b) (groupby_max O)); reflexivity. }
  split; [rewrite H; reflexivity|exact H].
Qed.

Lemma group_rates_app (k : key) (l1 l2 : list Labor) :
  group_rates k (l1 ++ l2) = group_rates k l1 ++ group_rates k l2.
Proof. unfold group_rates. rewrite filter_app, map_app. reflexivity. Qed.

Lemma incomplete_row (r : RawLabor) :
  person_key r = CNull \/ project_key r = CNull \/ laborCategory_name r = None
  \/ beginDate r = None \/ endDate r = None \/ new_billRate r = None ->
  complete r = false.
Proof.
  unfold complete, new_billRate.
  intros [H|[H|[H|[H|[H|H]]]]]; rewrite H; simpl;
    rewrite ?andb_false_r; reflexivity.
Qed.

(** The handler reads the labor-category table through [dropna] only. *)
Lemma update_bill_rate_dropna (pm : list RawPlanned) (lc lc' : list RawLabor) :
  dropna lc = dropna lc' ->
  update_bill_rate parse_int parse_float parse_datetime pm lc
  = update_bill_rate parse_int parse_float parse_datetime pm lc'.
Proof.
  intros H. unfold update_bill_rate, update_bill_rate_with, normalize.
  rewrite H. reflexivity.
Qed.

(** C4 (incomplete-override exclusion).  A labor-category row with a missing
    value in one of the five key columns or in [new_billRate] is dropped
    before the conversions: the request ends as it does without the row, so
    the row changes no [billRate]; a row with a missing [person.key] is one
    such.  The same holds after the conversions: a converted override row
    with a missing key cell or a missing rate changes nothing in the
    reconciled table. *)
Theorem incomplete_override_excluded :
  (forall (pm : list RawPlanned) (lc1 lc2 : list RawLabor) (r : RawLabor),
     person_key r = CNull \/ project_key r = CNull \/ laborCategory_name r = None
     \/ beginDate r = None \/ endDate r = None \/ new_billRate r = None ->
     ~ In r (dropna (lc1 ++ r :: lc2))
     /\ dropna (lc1 ++ r :: lc2) = dropna (lc1 ++ lc2)
     /\ update_bill_rate parse_int parse_float parse_datetime pm (lc1 ++ r :: lc2)
        = update_bill_rate parse_int parse_float parse_datetime pm (lc1 ++ lc2))
  /\ (forall (B : list Planned) (O1 O2 : list Labor) (o : Labor),
        key_notna (key_of o) = false \/ isna (new_billRate o) = true ->
        reconcile B (O1 ++ o :: O2) = reconcile B (O1 ++ O2)).
Proof.
  split.
  - intros pm lc1 lc2 r H. apply incomplete_row in H.
    assert (Hd : dropna (lc1 ++ r :: lc2) = dropna (lc1 ++ lc2)).
    { unfold dropna. rewrite !filter_app. simpl. rewrite H. reflexivity. }
    split.
    + unfold dropna. intros Hin. apply filter_In in Hin. destruct Hin as [_ Hc].
      congruence.
    + split; [exact Hd|apply update_bill_rate_dropna, Hd].
  - intros B O1 O2 o H. rewrite !reconcile_rows. apply map_ext. intros b.
    rewrite !lookup_rate_groupby.
    destruct (key_notna (key_of b)) eqn:Hk; [|reflexivity].
    rewrite !group_rates_app, group_rates_cons.
    destruct (key_eq_dec (key_of b) (key_of o)) as [E|N]; [|reflexivity].
    destruct H as [H|H]; [congruence|].
    destruct (new_billRate o); try discriminate.
    unfold series_max. rewrite !fold_left_app. reflexivity.
Qed.

(** A key or date cell that raises ends the conversions with an exception. *)
Lemma planned_cell_raises (pm : list RawPlanned) (lc : list RawLabor)
    (r : RawPlanned) (e : exn) :
  In r pm -> key_or_date_raises parse_int parse_datetime r e ->
  exists e', normalize parse_int parse_float parse_datetime pm lc = Raise e'.
Proof.
  intros Hin Hr.
  destruct (normalize parse_int parse_float parse_datetime pm lc) as [[pm' lc']|e'] eqn:N;
    [|exists e'; reflexivity].
  exfalso. apply normalize_Ok in N. destruct N as [Hpm _].
  destruct (@Forall2_In_l _ _ _ _ _ _ Hpm Hin) as (n & _ & Hc).
  unfold planned_converted, converted in Hc. unfold key_or_date_raises in Hr.
  intuition congruence.
Qed.

Lemma labor_cell_raises (pm : list RawPlanned) (lc : list RawLabor)
    (r : RawLabor) (e : exn) :
  In r (dropna lc) ->
  key_or_date_raises parse_int parse_datetime r e \/ to_float parse_float (rate r) = Raise e ->
  exists e', normalize parse_int parse_float parse_datetime pm lc = Raise e'.
Proof.
  intros Hin Hr.
  destruct (normalize parse_int parse_float parse_datetime pm lc) as [[pm' lc']|e'] eqn:N;
    [|exists e'; reflexivity].
  exfalso. apply normalize_Ok in N. destruct N as [_ Hlc].
  destruct (@Forall2_In_l _ _ _ _ _ _ Hlc Hin) as (n & _ & Hc).
  unfold labor_converted, converted in Hc. unfold key_or_date_raises in Hr.
  intuition congruence.
Qed.

(** C5, amended (null coercion).  A missing [person.key], [project.key],
    [beginDate] or [endDate] becomes null without an error, and a row with a
    null key is attached no override.  A key text that is not an integer and
    a date text that does not parse are not made null: they raise, and the
    request then ends with a 500 response and writes nothing.  When nothing
    raises, every row is converted in place. *)
Theorem null_coercion_amended :
  (astype_Int64 parse_int CNull = Ok None /\ to_datetime parse_datetime None = Ok None)
  /\ (forall k O, key_notna k = false -> lookup_rate k (groupby_max O) = NaN)
  /\ (forall s, parse_int s = None ->
        astype_Int64 parse_int (CStr s) = Raise (IntCastError (CStr s)))
  /\ (forall s, parse_datetime s = None ->
        to_datetime parse_datetime (Some s) = Raise (DateParseError s))
  /\ (forall (pm : list RawPlanned) (lc : list RawLabor) (r : RawPlanned) (e : exn),
        In r pm -> key_or_date_raises parse_int parse_datetime r e ->
        exists e',
          update_bill_rate parse_int parse_float parse_datetime pm lc
          = mkOutcome (Response (ErrorProcessingRequest e') 500) None)
  /\ (forall (pm : list RawPlanned) (lc : list RawLabor) (r : RawLabor) (e : exn),
        In r (dropna lc) -> key_or_date_raises parse_int parse_datetime r e ->
        exists e',
          update_bill_rate parse_int parse_float parse_datetime pm lc
          = mkOutcome (Response (ErrorProcessingRequest e') 500) None)
  /\ (forall (pm : list RawPlanned) (lc : list RawLabor) pm' lc',
        normalize parse_int parse_float parse_datetime pm lc = Ok (pm', lc') ->
        Forall2 (planned_converted parse_int parse_datetime) pm pm'
        /\ Forall2 (labor_converted parse_int parse_float parse_datetime) (dropna lc) lc').
Proof.
  split; [split; reflexivity|].
  split; [intros k O Hk; rewrite lookup_rate_groupby, Hk; reflexivity|].
  split; [intros s Hs; simpl; rewrite Hs; reflexivity|].
  split; [intros s Hs; simpl; rewrite Hs; reflexivity|].
  split.
  { intros pm lc r e Hin Hr.
    destruct (planned_cell_raises pm lc Hin Hr) as (e' & N).
    exists e'. apply update_bill_rate_with_Raise, N. }
  split.
  { intros pm lc r e Hin Hr.
    destruct (labor_cell_raises pm lc Hin (or_introl Hr)) as (e' & N).
    exists e'. apply update_bill_rate_with_Raise, N. }
  intros pm lc pm' lc'. apply normalize_Ok.
Qed.

Lemma str_replace_filter (c : ascii) (s : string) :
  list_ascii_of_string (str_replace c s)
  = filter (fun a => negb (Ascii.eqb a c)) (list_ascii_of_string s).
Proof.
  induction s as [|a s IH]; simpl; [reflexivity|].
  destruct (Ascii.eqb a c); simpl; rewrite IH; reflexivity.
Qed.

Lemma filter_filter {A} (p q : A -> bool) (l : list A) :
  filter q (filter p l) = filter (fun a => p a && q a) l.
Proof.
  induction l as [|a l IH]; simpl; [reflexivity|].
  destruct (p a); simpl; [destruct (q a)|]; rewrite IH; reflexivity.
Qed.

(** C6, amended (currency parsing).  The rate text is the cell's text with
    every "$" and "," taken out, all other characters kept in order, and the
    rate is what the float reader makes of that text.  The cell raises the
    rate error exactly when the reader rejects the stripped text, whether or
    not a character foreign to numbers is left in it.  A rejected rate in a
    complete labor-category row ends the request with a 500 response and
    nothing written, and a request ends with the rate error only for such a
    row. *)
Theorem currency_parsing_amended :
  (forall c, list_ascii_of_string (strip_currency c)
             = filter (fun a => negb (Ascii.eqb a "$") && negb (Ascii.eqb a ","))
                      (list_ascii_of_string (astype_str c)))
  /\ (forall c x, to_float parse_float c = Ok x
                  <-> parse_float (strip_currency c) = Some x)
  /\ (forall c e, to_float parse_float c = Raise e
                  <-> parse_float (strip_currency c) = None
                      /\ e = MalformedRateError (strip_currency c))
  /\ (forall (pm : list RawPlanned) (lc : list RawLabor) (r : RawLabor),
        In r (dropna lc) ->
        parse_float (strip_currency (new_billRate r)) = None ->
        exists e,
          update_bill_rate parse_int parse_float parse_datetime pm lc
          = mkOutcome (Response (ErrorProcessingRequest e) 500) None)
  /\ (forall (pm : list RawPlanned) (lc : list RawLabor) (s : string),
        update_bill_rate parse_int parse_float parse_datetime pm lc
        = mkOutcome (Response (ErrorProcessingRequest (MalformedRateError s)) 500) None ->
        exists r, In r (dropna lc)
                  /\ strip_currency (new_billRate r) = s
                  /\ parse_float s = None).
Proof.
  split.
  { intros c. unfold strip_currency.
    rewrite !str_replace_filter, filter_filter. reflexivity. }
  split.
  { intros c x. unfold to_float.
    destruct (parse_float (strip_currency c)); split; congruence. }
  split.
  { intros c e. unfold to_float.
    destruct (parse_float (strip_currency c)); split.
    - discriminate.
    - intros [H _]. discriminate.
    - intros H. injection H as <-. auto.
    - intros [_ ->]. reflexivity. }
  split.
  { intros pm lc r Hin Hr.
    destruct (labor_cell_raises pm lc (e := MalformedRateError (strip_currency (rate r))) Hin)
      as (e' & N).
    - right. unfold to_float. unfold new_billRate in Hr. rewrite Hr. reflexivity.
    - exists e'. apply update_bill_rate_with_Raise, N. }
  intros pm lc s H.
  destruct (normalize parse_int parse_float parse_datetime pm lc) as [[pm' lc']|e] eqn:N.
  { rewrite (update_bill_rate_Ok pm lc N) in H. discriminate. }
  unfold update_bill_rate in H.
  rewrite (update_bill_rate_with_Raise merge_left pm lc N) in H.
  injection H as ->. apply normalize_Raise in N.
  assert (Hk : forall V X (r : Row cell cell (option string) (option string) V X),
             ~ key_or_date_raises parse_int parse_datetime r (MalformedRateError s)).
  { intros V X r. unfold key_or_date_raises, to_datetime.
    destruct (person_key r) as [|z|p], (project_key r) as [|z'|j],
      (beginDate r) as [b|], (endDate r) as [d|]; simpl;
      try destruct (parse_int p); try destruct (parse_int j);
      try destruct (parse_datetime b); try destruct (parse_datetime d);
      intuition discriminate. }
  destruct N as [(r & _ & Hr)|(r & Hin & [Hr|Hr])];
    [exfalso; exact (Hk _ _ r Hr)|exfalso; exact (Hk _ _ r Hr)|].
  exists r. split; [exact Hin|]. unfold to_float in Hr. unfold new_billRate.
  destruct (parse_float (strip_currency (rate r))) eqn:Hp; [discriminate|].
  injection Hr as <-. auto.
Qed.

(** C9 (row-count mismatch).  Whatever the join, when the joined table has
    another number of rows than the planned matrix the request ends with the
    500 response that carries both counts and nothing is written; a table is
    written only when the counts agree. *)
Theorem row_count_mismatch_reported
    (join : list Planned -> list Labor -> list (Planned * float))
    (pm : list RawPlanned) (lc : list RawLabor)
    (pm' : list Planned) (lc' : list Labor) :
  normalize parse_int parse_float parse_datetime pm lc = Ok (pm', lc') ->
  List.length (join pm' (groupby_max lc')) <> List.length pm' ->
  update_bill_rate_with parse_int parse_float parse_datetime join pm lc
  = mkOutcome
      (Response (RowCountMismatch (List.length pm')
                   (List.length (join pm' (groupby_max lc')))) 500)
      None
  /\ uploaded (update_bill_rate_with parse_int parse_float parse_datetime join pm lc) = None
  /\ status_code (response (update_bill_rate_with parse_int parse_float parse_datetime join pm lc))
     = 500.
Proof.
  intros N Hlen.
  assert (H : update_bill_rate_with parse_int parse_float parse_datetime join pm lc
              = mkOutcome
                  (Response (RowCountMismatch (List.length pm')
                               (List.length (join pm' (groupby_max lc')))) 500)
                  None).
  { rewrite (update_bill_rate_with_Ok join pm lc N).
    unfold reconcile_with. cbv zeta. rewrite !length_map.
    match goal with
    | |- context [Nat.eqb ?a ?b] => destruct (Nat.eqb_spec a b) as [E|E]
    end; [exfalso; apply Hlen; exact E|reflexivity]. }
  rewrite H. auto.
Qed.

(** C10 (the mismatch branch is unreachable).  The grouped override table
    holds every key at most once, so a baseline row matches at most one of
    its rows, the left merge returns as many rows as the baseline has, and
    no request ends with the row-count-mismatch response. *)
Theorem mismatch_unreachable :
  (forall O : list Labor, NoDup (map key_of (groupby_max O)))
  /\ (forall (O : list Labor) (b : Planned),
        (List.length (filter (fun r => key_eqb (key_of b) (key_of r)) (groupby_max O))
         <= 1)%nat)
  /\ (forall (B : list Planned) (O : list Labor),
        List.length (merge_left B (groupby_max O)) = List.length B)
  /\ (forall (pm : list RawPlanned) (lc : list RawLabor) (original updated : nat),
        content (response (update_bill_rate parse_int parse_float parse_datetime pm lc))
        <> RowCountMismatch original updated).
Proof.
  split; [apply groupby_max_NoDup|].
  split.
  { intros O b.
    rewrite (filter_unique_key (key_of b) (groupby_max O) (groupby_max_NoDup O)).
    destruct (find _ _); simpl; lia. }
  split.
  { intros B O.
    rewrite (merge_left_unique B (groupby_max O) (groupby_max_NoDup O)).
    apply length_map. }
  intros pm lc original updated.
  destruct (normalize parse_int parse_float parse_datetime pm lc) as [[pm' lc']|e] eqn:N.
  - rewrite (update_bill_rate_Ok pm lc N). simpl. discriminate.
  - unfold update_bill_rate. rewrite (update_bill_rate_with_Raise merge_left pm lc N).
    simpl. discriminate.
Qed.

End HandlerProperties.

(** ** The claims on the example tables *)

(** The scenario: the override of the engineer's key replaces the rate; the
    uploaded table has the one row of the planned matrix. *)
Lemma baseline_preservation_scenario :
  uploaded (run_update_bill_rate scenario_baseline scenario_overrides)
  = Some [engineer_planned (Fin 125)]
  /\ List.length [engineer_planned (Fin 125)] = List.length scenario_baseline
  /\ Forall2 (fun raw u => planned_converted int_of_string iso_date raw (set_rate u (billRate raw)))
             scenario_baseline [engineer_planned (Fin 125)].
Proof.
  split; [reflexivity|].
  apply (proj2 (baseline_preservation int_of_string float_of_string iso_date)
               scenario_baseline scenario_overrides).
  reflexivity.
Defined.

(** An override of exactly zero replaces the baseline rate. *)
Lemma substitution_rule_zero :
  map (fun u => billRate u)
      (reconcile [engineer_planned (Fin 100)]
                 [mkRow (Some 1) (Some 10) (Some "Engineer")
                        (Some 1704067200000000000) (Some 1719705600000000000)
                        (Fin 0) tt])
  = [Fin 0].
Proof.
  exact (eq_trans
           (proj1 (proj2 (substitution_rule
              [engineer_planned (Fin 100)]
              [mkRow (Some 1) (Some 10) (Some "Engineer")
                     (Some 1704067200000000000) (Some 1719705600000000000)
                     (Fin 0) tt])))
           eq_refl).
Defined.

(** Rates 100 and 150 of the engineer's key collapse to 150. *)
Lemma max_collapse_100_150 :
  key_notna (key_of (engineer_planned NaN)) = true
  /\ groupby_max [group_row (key_of (engineer_planned NaN), Fin 100);
                  group_row (key_of (engineer_planned NaN), Fin 150)]
     = [group_row (key_of (engineer_planned NaN), Fin 150)].
Proof.
  split; [reflexivity|].
  apply (proj2 (proj2 (proj2 (proj2 (max_collapse [])))) (key_of (engineer_planned NaN))).
  reflexivity.
Defined.

(** An override row without [person.key] leaves the request as it is
    without the row. *)
Lemma incomplete_override_null_person :
  person_key (engineer_override CNull (Some "$999")) = CNull
  /\ run_update_bill_rate scenario_baseline
       (scenario_overrides ++ [engineer_override CNull (Some "$999")])
     = run_update_bill_rate scenario_baseline (scenario_overrides ++ []).
Proof.
  split; [reflexivity|].
  apply (proj1 (incomplete_override_excluded int_of_string float_of_string iso_date)
               scenario_baseline scenario_overrides []
               (engineer_override CNull (Some "$999"))).
  left. reflexivity.
Defined.

(** C5, as stated, fails: a [person.key] that is no number and a date text
    that does not parse are not turned into nulls; each ends the request with
    a 500 response and no table written. *)
Lemma null_coercion_counterexample :
  astype_Int64 int_of_string (CStr "abc") = Raise (IntCastError (CStr "abc"))
  /\ run_update_bill_rate [engineer_row (CStr "abc") (Some "2024-01-01")] []
     = mkOutcome (Response (ErrorProcessingRequest (IntCastError (CStr "abc"))) 500) None
  /\ to_datetime iso_date (Some "not a date") = Raise (DateParseError "not a date")
  /\ run_update_bill_rate [engineer_row (CInt 1) (Some "not a date")] []
     = mkOutcome (Response (ErrorProcessingRequest (DateParseError "not a date")) 500) None
  /\ ~ (exists pm',
          normalize int_of_string float_of_string iso_date
            [engineer_row (CStr "abc") (Some "2024-01-01")] []
          = Ok (pm', [])).
Proof.
  repeat split; try reflexivity.
  intros (pm' & H). discriminate H.
Qed.

(** A baseline row with a key that is no number ends the request. *)
Lemma null_coercion_abc :
  In (engineer_row (CStr "abc") (Some "2024-01-01"))
     [engineer_row (CStr "abc") (Some "2024-01-01")]
  /\ key_or_date_raises int_of_string iso_date (engineer_row (CStr "abc") (Some "2024-01-01"))
       (IntCastError (CStr "abc"))
  /\ exists e',
       run_update_bill_rate [engineer_row (CStr "abc") (Some "2024-01-01")] []
       = mkOutcome (Response (ErrorProcessingRequest e') 500) None.
Proof.
  assert (Hin : In (engineer_row (CStr "abc") (Some "2024-01-01"))
                   [engineer_row (CStr "abc") (Some "2024-01-01")])
    by (left; reflexivity).
  assert (Hr : key_or_date_raises int_of_string iso_date
                 (engineer_row (CStr "abc") (Some "2024-01-01"))
                 (IntCastError (CStr "abc")))
    by (left; reflexivity).
  split; [exact Hin|]. split; [exact Hr|].
  exact (proj1 (proj2 (proj2 (proj2 (proj2
           (null_coercion_amended int_of_string float_of_string iso_date)))))
           _ [] _ _ Hin Hr).
Defined.

(** C6, as stated, fails: "$" and "$1.2.3" leave no character foreign to
    numbers behind and are rejected all the same, and "$nan" leaves letters
    behind and is read (as a missing rate). *)
Lemma currency_parsing_counterexample :
  (strip_currency (Some "$") = ""
   /\ forallb numeric_char (list_ascii_of_string (strip_currency (Some "$"))) = true
   /\ to_float float_of_string (Some "$") = Raise (MalformedRateError ""))
  /\ (forallb numeric_char (list_ascii_of_string (strip_currency (Some "$1.2.3"))) = true
      /\ to_float float_of_string (Some "$1.2.3") = Raise (MalformedRateError "1.2.3"))
  /\ run_update_bill_rate scenario_baseline [engineer_override (CInt 1) (Some "$")]
     = mkOutcome (Response (ErrorProcessingRequest (MalformedRateError "")) 500) None
  /\ (forallb numeric_char (list_ascii_of_string (strip_currency (Some "$nan"))) = false
      /\ to_float float_of_string (Some "$nan") = Ok NaN).
Proof. repeat split; reflexivity. Qed.

(** A rate that the reader rejects ends the request. *)
Lemma currency_parsing_12x :
  In (engineer_override (CInt 1) (Some "$12x"))
     (dropna [engineer_override (CInt 1) (Some "$12x")])
  /\ float_of_string (strip_currency (new_billRate (engineer_override (CInt 1) (Some "$12x"))))
     = None
  /\ exists e,
       run_update_bill_rate scenario_baseline [engineer_override (CInt 1) (Some "$12x")]
       = mkOutcome (Response (ErrorProcessingRequest e) 500) None.
Proof.
  assert (Hin : In (engineer_override (CInt 1) (Some "$12x"))
                   (dropna [engineer_override (CInt 1) (Some "$12x")]))
    by (left; reflexivity).
  split; [exact Hin|]. split; [reflexivity|].
  exact (proj1 (proj2 (proj2 (proj2
           (currency_parsing_amended int_of_string float_of_string iso_date))))
           scenario_baseline _ _ Hin eq_refl).
Defined.

(** Without overrides the planned matrix of the scenario is uploaded as
    converted. *)
Lemma no_override_scenario :
  normalize int_of_string float_of_string iso_date scenario_baseline []
  = Ok ([engineer_planned (Fin 100)], [])
  /\ run_update_bill_rate scenario_baseline []
     = mkOutcome (Response UpdatedAndUploaded 200) (Some [engineer_planned (Fin 100)]).
Proof.
  split; [reflexivity|].
  apply (proj2 (no_override_passthrough int_of_string float_of_string iso_date)
               scenario_baseline [engineer_planned (Fin 100)] []).
  reflexivity.
Defined.

(** Reconciling the scenario twice is reconciling it once. *)
Lemma reconcile_idempotent_scenario :
  reconcile (reconcile [engineer_planned (Fin 100)]
                       [group_row (key_of (engineer_planned NaN), Fin 125)])
            [group_row (key_of (engineer_planned NaN), Fin 125)]
  = reconcile [engineer_planned (Fin 100)]
              [group_row (key_of (engineer_planned NaN), Fin 125)].
Proof.
  exact (proj2 (reconcile_idempotent
                  [engineer_planned (Fin 100)]
                  [group_row (key_of (engineer_planned NaN), Fin 125)])).
Defined.

(** The defective join of the scenario: two joined rows for the one row of
    the planned matrix, reported with both counts, nothing written. *)
Lemma row_count_mismatch_1_2 :
  normalize int_of_string float_of_string iso_date scenario_baseline scenario_overrides
  = Ok ([engineer_planned (Fin 100)],
        [group_row (key_of (engineer_planned NaN), Fin 125)])
  /\ List.length (doubling_join [engineer_planned (Fin 100)]
                    (groupby_max [group_row (key_of (engineer_planned NaN), Fin 125)]))
     <> List.length [engineer_planned (Fin 100)]
  /\ update_bill_rate_with int_of_string float_of_string iso_date doubling_join
       scenario_baseline scenario_overrides
     = mkOutcome (Response (RowCountMismatch 1 2) 500) None.
Proof.
  assert (N : normalize int_of_string float_of_string iso_date scenario_baseline scenario_overrides
              = Ok ([engineer_planned (Fin 100)],
                    [group_row (key_of (engineer_planned NaN), Fin 125)]))
    by reflexivity.
  assert (L : List.length (doubling_join [engineer_planned (Fin 100)]
                (groupby_max [group_row (key_of (engineer_planned NaN), Fin 125)]))
              <> List.length [engineer_planned (Fin 100)])
    by (intros H; discriminate H).
  split; [exact N|]. split; [exact L|].
  exact (proj1 (row_count_mismatch_reported int_of_string float_of_string iso_date doubling_join
                  scenario_baseline scenario_overrides N L)).
Defined.

(** The request of the scenario does not end in the mismatch response. *)
Lemma mismatch_unreachable_scenario :
  content (response (run_update_bill_rate scenario_baseline scenario_overrides))
  <> RowCountMismatch 1 2.
Proof.
  exact (proj2 (proj2 (proj2 (mismatch_unreachable int_of_string float_of_string iso_date)))
           scenario_baseline scenario_overrides 1%nat 2%nat).
Defined.

(** * Further properties of the reconciliation *)

Lemma float_eq_refl (a : float) : float_eq a a.
Proof. destruct a; simpl; auto. apply Qeq_refl. Qed.

Lemma float_leb_antisym (a b : float) :
  float_leb a b = true -> float_leb b a = true -> float_eq a b.
Proof.
  destruct a as [| |x|], b as [| |y|]; simpl; try discriminate; auto.
  rewrite !negb_involutive, !Qle_bool_iff. apply Qle_antisym.
Qed.

Lemma group_rates_In (k : key) (O : list Labor) (v : float) :
  In v (group_rates k O) <-> exists o, In o O /\ key_of o = k /\ new_billRate o = v.
Proof.
  unfold group_rates. rewrite in_map_iff. split.
  - intros (o & Hv & Ho). apply filter_In in Ho. destruct Ho as [Ho Hk].
    apply key_eqb_eq in Hk. exists o. auto.
  - intros (o & Ho & Hk & Hv). exists o. split; [exact Hv|].
    apply filter_In. split; [exact Ho|]. apply key_eqb_eq, Hk.
Qed.

(** The row of the reconciled table at the place of baseline row [b]. *)
Lemma reconcile_nth (B : list Planned) (O : list Labor) (i : nat) (b : Planned) :
  nth_error B i = Some b ->
  nth_error (reconcile B O) i
  = Some (set_rate b (combine_first
                        (if key_notna (key_of b)
                         then series_max (group_rates (key_of b) O) else NaN)
                        (billRate b))).
Proof.
  intros Hb. rewrite reconcile_rows.
  rewrite (map_nth_error _ _ _ Hb), lookup_rate_groupby. reflexivity.
Qed.

(** X1 (override precedence).  A baseline row with a complete key for which
    the override table holds a rate comes out with one of the rates the
    table holds for that key, no rate held for the key is greater, and the
    baseline rate is gone; its other columns stay. *)
Theorem override_precedence (B : list Planned) (O : list Labor)
    (i : nat) (b : Planned) (o : Labor) :
  nth_error B i = Some b ->
  In o O -> key_of o = key_of b -> key_notna (key_of b) = true ->
  isna (new_billRate o) = false ->
  exists u, nth_error (reconcile B O) i = Some u
    /\ other_columns u = other_columns b
    /\ isna (billRate u) = false
    /\ float_leb (new_billRate o) (billRate u) = true
    /\ exists o', In o' O /\ key_of o' = key_of b /\ new_billRate o' = billRate u.
Proof.
  intros Hb Ho Hk Hn Hv.
  eexists. split; [apply (reconcile_nth B O i Hb)|].
  rewrite Hn.
  assert (Hin : In (new_billRate o) (group_rates (key_of b) O))
    by (apply group_rates_In; exists o; auto).
  destruct (series_max_number (group_rates (key_of b) O)) as (Hm & Hmn & Hle);
    [exists (new_billRate o); auto|].
  assert (Hc : billRate (set_rate b (combine_first
                 (series_max (group_rates (key_of b) O)) (billRate b)))
               = series_max (group_rates (key_of b) O)).
  { unfold billRate, combine_first. simpl. rewrite Hmn. reflexivity. }
  rewrite Hc. split; [reflexivity|]. split; [exact Hmn|].
  split; [apply Hle; assumption|]. apply group_rates_In, Hm.
Qed.



(** X4 (override tables with disjoint keys).  When two override tables share
    no key, reconciling with one and then with the other, in either order,
    gives the table that reconciling with their concatenation gives. *)
Theorem disjoint_overrides_compose (B : list Planned) (O1 O2 : list Labor) :
  (forall o1 o2, In o1 O1 -> In o2 O2 -> key_of o1 <> key_of o2) ->
  reconcile (reconcile B O1) O2 = reconcile B (O1 ++ O2)
  /\ reconcile (reconcile B O2) O1 = reconcile B (O1 ++ O2).
Proof.
  intros H.
  assert (D : forall k, group_rates k O1 = [] \/ group_rates k O2 = []).
  { intros k.
    destruct (group_rates k O1) as [|v1 l1] eqn:G1; [left; reflexivity|].
    destruct (group_rates k O2) as [|v2 l2] eqn:G2; [right; reflexivity|].
    exfalso.
    assert (H1 : In v1 (group_rates k O1)) by (rewrite G1; left; reflexivity).
    assert (H2 : In v2 (group_rates k O2)) by (rewrite G2; left; reflexivity).
    apply group_rates_In in H1. apply group_rates_In in H2.
    destruct H1 as (o1 & Ho1 & K1 & _), H2 as (o2 & Ho2 & K2 & _).
    apply (H o1 o2 Ho1 Ho2). congruence. }
  split.
  - rewrite (reconcile_rows (reconcile B O1) O2), (reconcile_rows B O1),
      (reconcile_rows B (O1 ++ O2)), map_map.
    apply map_ext. intros b. rewrite key_of_set_rate, !lookup_rate_groupby.
    destruct (key_notna (key_of b)); [|destruct b; reflexivity].
    rewrite group_rates_app.
    destruct (D (key_of b)) as [E|E]; rewrite E.
    + cbn [app].
      destruct (series_max (group_rates (key_of b) O2)); destruct b; reflexivity.
    + rewrite app_nil_r.
      destruct (series_max (group_rates (key_of b) O1)); destruct b; reflexivity.
  - rewrite (reconcile_rows (reconcile B O2) O1), (reconcile_rows B O2),
      (reconcile_rows B (O1 ++ O2)), map_map.
    apply map_ext. intros b. rewrite key_of_set_rate, !lookup_rate_groupby.
    destruct (key_notna (key_of b)); [|destruct b; reflexivity].
    rewrite group_rates_app.
    destruct (D (key_of b)) as [E|E]; rewrite E.
    + cbn [app].
      destruct (series_max (group_rates (key_of b) O2)); destruct b; reflexivity.
    + rewrite app_nil_r.
      destruct (series_max (group_rates (key_of b) O1)); destruct b; reflexivity.
Qed.

Lemma filter_perm {A} (p : A -> bool) (l l' : list A) :
  Permutation l l' -> Permutation (filter p l) (filter p l').
Proof.
  induction 1 as [|x l l' _ IH|x y l|l l' l'' _ IH1 _ IH2]; simpl.
  - constructor.
  - destruct (p x); [constructor|]; exact IH.
  - destruct (p x), (p y); try reflexivity. apply perm_swap.
  - eapply perm_trans; eassumption.
Qed.

Lemma forallb_false {A} (p : A -> bool) (l : list A) :
  forallb p l = false -> exists x, In x l /\ p x = false.
Proof.
  induction l as [|a l IH]; simpl; [discriminate|].
  destruct (p a) eqn:Pa; simpl.
  - intros H. destruct (IH H) as (x & Hx & Px). exists x. auto.
  - intros _. exists a. auto.
Qed.

(** The maximum of a group does not depend on the order of its rates. *)
Lemma series_max_perm (l l' : list float) :
  Permutation l l' -> float_eq (series_max l) (series_max l').
Proof.
  intros P. destruct (forallb isna l) eqn:F.
  - rewrite forallb_forall in F.
    rewrite (series_max_all_NaN l F), (series_max_all_NaN l'); [exact I|].
    intros x Hx. apply F. eapply Permutation_in; [symmetry; exact P|exact Hx].
  - apply forallb_false in F. destruct F as (x & Hx & Hn).
    destruct (series_max_number l) as (M1 & N1 & L1); [exists x; auto|].
    destruct (series_max_number l') as (M2 & N2 & L2).
    { exists x. split; [eapply Permutation_in; eassumption|exact Hn]. }
    apply float_leb_antisym.
    + apply L2; [eapply Permutation_in; eassumption|exact N1].
    + apply L1; [eapply Permutation_in; [symmetry; exact P|exact M2]|exact N2].
Qed.

(** X5 (order of the override rows).  Reordering the rows of the override
    table does not change the reconciled table: row by row the two results
    agree in every column, their rates as numbers. *)
Theorem override_order_irrelevant (B : list Planned) (O O' : list Labor) :
  Permutation O O' ->
  Forall2 same_row (reconcile B O) (reconcile B O').
Proof.
  intros P. rewrite !reconcile_rows.
  induction B as [|b B IH]; cbn [map]; constructor; [|exact IH].
  set (x := lookup_rate (key_of b) (groupby_max O)).
  set (y := lookup_rate (key_of b) (groupby_max O')).
  assert (E : float_eq x y).
  { unfold x, y. rewrite !lookup_rate_groupby.
    destruct (key_notna (key_of b)); [|exact I].
    apply series_max_perm. unfold group_rates.
    apply Permutation_map, filter_perm, P. }
  clearbody x y. split; [reflexivity|].
  destruct x, y; simpl in E; try contradiction;
    try exact E; try exact I; apply float_eq_refl.
Qed.

(** * Further properties of the handler *)


Section HandlerOutcome.

Variable parse_int : string -> option Z.
Variable parse_float : string -> option float.
Variable parse_datetime : string -> option Timestamp.






End HandlerOutcome.

(** ** The further properties on the example tables *)

(** The engineer's override of 125 replaces the rate of 100. *)
Lemma override_precedence_scenario :
  exists u,
    nth_error (reconcile [engineer_planned (Fin 100)]
                 [group_row (key_of (engineer_planned NaN), Fin 125)]) 0
    = Some u
    /\ other_columns u = other_columns (engineer_planned (Fin 100))
    /\ isna (billRate u) = false
    /\ float_leb (Fin 125) (billRate u) = true
    /\ exists o', In o' [group_row (key_of (engineer_planned NaN), Fin 125)]
                  /\ key_of o' = key_of (engineer_planned (Fin 100))
                  /\ new_billRate o' = billRate u.
Proof.
  apply (override_precedence
           [engineer_planned (Fin 100)]
           [group_row (key_of (engineer_planned NaN), Fin 125)]
           0 (b := engineer_planned (Fin 100))
           (o := group_row (key_of (engineer_planned NaN), Fin 125)));
    try reflexivity.
  left. reflexivity.
Defined.



(** The engineer's override, then one for person 2: as both at once. *)
Lemma disjoint_overrides_scenario :
  reconcile (reconcile [engineer_planned (Fin 100)]
               [group_row (key_of (engineer_planned NaN), Fin 125)])
    [mkRow (Some 2) (Some 10) (Some "Engineer")
           (Some 1704067200000000000) (Some 1719705600000000000)
           (Fin 999) tt]
  = reconcile [engineer_planned (Fin 100)]
      ([group_row (key_of (engineer_planned NaN), Fin 125)]
       ++ [mkRow (Some 2) (Some 10) (Some "Engineer")
                 (Some 1704067200000000000) (Some 1719705600000000000)
                 (Fin 999) tt]).
Proof.
  assert (D : forall o1 o2 : Labor,
             In o1 [group_row (key_of (engineer_planned NaN), Fin 125)] ->
             In o2 [mkRow (Some 2) (Some 10) (Some "Engineer")
                          (Some 1704067200000000000) (Some 1719705600000000000)
                          (Fin 999) tt] ->
             key_of o1 <> key_of o2).
  { intros o1 o2 [<-|[]] [<-|[]] K. discriminate K. }
  exact (proj1 (@disjoint_overrides_compose [engineer_planned (Fin 100)] _ _ D)).
Defined.

(** Rates 100 and 150 in either order. *)
Lemma override_order_scenario :
  Forall2 same_row
    (reconcile [engineer_planned (Fin 100)]
       [group_row (key_of (engineer_planned NaN), Fin 100);
        group_row (key_of (engineer_planned NaN), Fin 150)])
    (reconcile [engineer_planned (Fin 100)]
       [group_row (key_of (engineer_planned NaN), Fin 150);
        group_row (key_of (engineer_planned NaN), Fin 100)]).
Proof.
  apply override_order_irrelevant. apply perm_swap.
Defined.


(** * Properties of the handler with its blobs *)

Section BlobStorageProperties.

Variable container : Type.
Variable download_blob : container -> string -> option string.
Variable upload_blob : container -> string -> string -> container * bool.
Variable read_planned_csv : bool -> string -> option (list RawPlanned).
Variable read_labor_csv : bool -> string -> option (list RawLabor).
Variable to_csv : list Planned -> string.
Variable parse_int : string -> option Z.
Variable parse_float : string -> option float.
Variable parse_datetime : string -> option Timestamp.

Local Abbreviation serve :=
  (serve_update_bill_rate download_blob upload_blob read_planned_csv read_labor_csv
     to_csv parse_int parse_float parse_datetime).

(** The ways a request can go: it fails before the upload is reached; or
    both blobs are read, the conversions raise nothing and the reconciled
    table is uploaded to planned_matrix.csv, and the upload raises or
    returns. *)
Lemma serve_cases (c : container) :
  (exists e l,
     (forall blob_name, e <> WriteError blob_name)
     /\ serve c = mkServed (Reply (ErrorText e) 500) c (l ++ [ErrorProcessing e]))
  \/ (exists pm lc pm' lc' c' ok,
        blob_table download_blob read_planned_csv c PLANNED_MATRIX_BLOB false = Some pm
        /\ blob_table download_blob read_labor_csv c LABOR_CATEGORY_BLOB true = Some lc
        /\ normalize parse_int parse_float parse_datetime pm lc = Ok (pm', lc')
        /\ upload_blob c PLANNED_MATRIX_BLOB (to_csv (reconcile pm' lc')) = (c', ok)
        /\ ((ok = false
             /\ exists l,
                  serve c = mkServed (Reply (ErrorText (WriteError PLANNED_MATRIX_BLOB)) 500)
                              c' (l ++ [ErrorProcessing (WriteError PLANNED_MATRIX_BLOB)]))
            \/ (ok = true
                /\ exists l,
                     forallb (fun x => negb (is_error x)) l = true
                     /\ serve c = mkServed (Reply UpdatedText 200) c' l))).
Proof.
  unfold serve_update_bill_rate, read_csv_from_blob, write_csv_to_blob,
    processing_failed, blob_table.
  destruct (download_blob c PLANNED_MATRIX_BLOB) as [t1|];
    [|left; eexists; eexists; split; [|reflexivity]; intros ?; discriminate].
  destruct (read_planned_csv false t1) as [pm|];
    [|left; eexists; eexists; split; [|reflexivity]; intros ?; discriminate].
  destruct (download_blob c LABOR_CATEGORY_BLOB) as [t2|];
    [|left; eexists; eexists; split; [|reflexivity]; intros ?; discriminate].
  destruct (read_labor_csv true t2) as [lc|];
    [|left; eexists; eexists; split; [|reflexivity]; intros ?; discriminate].
  destruct (normalize parse_int parse_float parse_datetime pm lc) as [[pm' lc']|e] eqn:N;
    [|left; eexists; eexists; split; [|reflexivity]; intros ?; discriminate].
  rewrite reconcile_length, Nat.eqb_refl. cbn [negb].
  destruct (upload_blob c PLANNED_MATRIX_BLOB (to_csv (reconcile pm' lc')))
    as [c' ok] eqn:U.
  right. exists pm, lc, pm', lc', c', ok.
  repeat (split; [reflexivity || assumption|]).
  destruct ok.
  - right. split; [reflexivity|]. eexists. split; [|reflexivity]. reflexivity.
  - left. split; [reflexivity|]. eexists. reflexivity.
Qed.

(** X8 (a request and the container).  A request answers 200 or 500 and
    calls the upload at most once, for planned_matrix.csv, with the CSV text
    of the reconciled table, and only after both blobs were read and the
    conversions raised nothing.  It answers 200 exactly when that upload
    returns; when the upload raises it answers 500 with the write error; a
    request that fails earlier leaves the container as it was. *)
Theorem request_uploads_at_most_once (c : container) :
  (reply_status (reply (serve c)) = 500 /\ stored (serve c) = c
   /\ forall blob_name,
        reply_text_of (reply (serve c)) <> ErrorText (WriteError blob_name))
  \/ (exists pm lc T ok,
        blob_table download_blob read_planned_csv c PLANNED_MATRIX_BLOB false = Some pm
        /\ blob_table download_blob read_labor_csv c LABOR_CATEGORY_BLOB true = Some lc
        /\ uploaded (update_bill_rate parse_int parse_float parse_datetime pm lc)
           = Some T
        /\ upload_blob c PLANNED_MATRIX_BLOB (to_csv T) = (stored (serve c), ok)
        /\ reply (serve c)
           = if ok then Reply UpdatedText 200
             else Reply (ErrorText (WriteError PLANNED_MATRIX_BLOB)) 500).
Proof.
  destruct (serve_cases c)
    as [(e & l & He & H)
       |(pm & lc & pm' & lc' & c' & ok & H1 & H2 & N & U & H)].
  - left. rewrite H. simpl. split; [reflexivity|]. split; [reflexivity|].
    intros blob_name E. injection E as E. exact (He blob_name E).
  - right. exists pm, lc, (reconcile pm' lc'), ok.
    rewrite (update_bill_rate_Ok parse_int parse_float parse_datetime pm lc N).
    destruct H as [(-> & l & H)|(-> & l & _ & H)]; rewrite H; simpl; auto.
Qed.

(** X9 (no silent failure).  A request that answers 500 has logged an error,
    and a request that answers 200 has logged none: the response is 500
    exactly when the log of the request holds an error entry. *)
Theorem failure_is_logged (c : container) :
  (reply_status (reply (serve c)) = 500 /\ existsb is_error (logged (serve c)) = true)
  \/ (reply_status (reply (serve c)) = 200 /\ existsb is_error (logged (serve c)) = false).
Proof.
  assert (E : forall l e, existsb is_error (l ++ [ErrorProcessing e]) = true)
    by (intros l e; rewrite existsb_app; simpl; apply orb_true_r).
  destruct (serve_cases c)
    as [(e & l & _ & H)
       |(pm & lc & pm' & lc' & c' & ok & _ & _ & _ & _ & [(_ & l & H)|(_ & l & L & H)])];
    rewrite H; simpl.
  - left. auto.
  - left. auto.
  - right. split; [reflexivity|].
    clear H. induction l as [|x l IH]; simpl in *; [reflexivity|].
    apply andb_true_iff in L. destruct L as [Lx Ll].
    apply negb_true_iff in Lx. rewrite Lx. apply IH, Ll.
Qed.

(** X10 (the blobs after a request).  In a container where an upload leaves
    every blob but the one it names, and where an upload that returns has
    put its text under that name, a request changes no blob but
    planned_matrix.csv; Labor Category.csv in particular is only read.
    After a request that answers 200, planned_matrix.csv holds the CSV text
    of the table the handler uploads. *)
Theorem request_touches_one_blob (c : container) :
  (forall c0 n x c1 ok, upload_blob c0 n x = (c1, ok) ->
     forall n', n' <> n -> download_blob c1 n' = download_blob c0 n') ->
  (forall c0 n x c1, upload_blob c0 n x = (c1, true) ->
     download_blob c1 n = Some x) ->
  (forall name, name <> PLANNED_MATRIX_BLOB ->
     download_blob (stored (serve c)) name = download_blob c name)
  /\ download_blob (stored (serve c)) LABOR_CATEGORY_BLOB
     = download_blob c LABOR_CATEGORY_BLOB
  /\ (reply_status (reply (serve c)) = 200 ->
      exists pm lc T,
        blob_table download_blob read_planned_csv c PLANNED_MATRIX_BLOB false = Some pm
        /\ blob_table download_blob read_labor_csv c LABOR_CATEGORY_BLOB true = Some lc
        /\ uploaded (update_bill_rate parse_int parse_float parse_datetime pm lc) = Some T
        /\ download_blob (stored (serve c)) PLANNED_MATRIX_BLOB = Some (to_csv T)).
Proof.
  intros Others Written.
  destruct (serve_cases c)
    as [(e & l & _ & H)
       |(pm & lc & pm' & lc' & c' & ok & H1 & H2 & N & U & H)].
  - rewrite H. simpl.
    split; [reflexivity|]. split; [reflexivity|]. discriminate.
  - assert (Other : forall name, name <> PLANNED_MATRIX_BLOB ->
              download_blob c' name = download_blob c name)
      by (intros name Hn; apply (Others _ _ _ _ _ U name Hn)).
    destruct H as [(-> & l & H)|(-> & l & _ & H)]; rewrite H; simpl.
    + split; [exact Other|]. split; [apply Other; discriminate|]. discriminate.
    + split; [exact Other|]. split; [apply Other; discriminate|].
      intros _. exists pm, lc, (reconcile pm' lc').
      rewrite (update_bill_rate_Ok parse_int parse_float parse_datetime pm lc N).
      repeat split; try assumption. apply (Written _ _ _ _ U).
Qed.

End BlobStorageProperties.

(** The request of the scenario on the container in memory. *)
Lemma request_touches_one_blob_scenario :
  (forall name, name <> PLANNED_MATRIX_BLOB ->
     memory_download (stored (serve_scenario scenario_container)) name
     = memory_download scenario_container name)
  /\ memory_download (stored (serve_scenario scenario_container)) LABOR_CATEGORY_BLOB
     = Some "labor categories"
  /\ memory_download (stored (serve_scenario scenario_container)) PLANNED_MATRIX_BLOB
     = Some "updated planned matrix".
Proof.
  assert (Others : forall (c0 : memory_container) n x c1 ok,
            memory_upload c0 n x = (c1, ok) ->
            forall n', n' <> n -> memory_download c1 n' = memory_download c0 n').
  { intros c0 n x c1 ok H n' Hn. injection H as <- _.
    unfold memory_download. apply String.eqb_neq in Hn. rewrite Hn. reflexivity. }
  assert (Written : forall (c0 : memory_container) n x c1,
            memory_upload c0 n x = (c1, true) -> memory_download c1 n = Some x).
  { intros c0 n x c1 H. injection H as <-.
    unfold memory_download. rewrite String.eqb_refl. reflexivity. }
  split; [|split; reflexivity].
  exact (proj1 (request_touches_one_blob memory_download memory_upload
                  (fun _ _ => Some scenario_baseline)
                  (fun _ _ => Some scenario_overrides)
                  (fun _ => "updated planned matrix")
                  int_of_string float_of_string iso_date
                  scenario_container Others Written)).
Defined.

(** * Properties of the fetch loops *)

Section ScanProperties.

Local Open Scope nat_scope.

Variable J : Type.
Variable classify : nat -> probe J.

Lemma hits_S (first n : nat) :
  hits classify first (S n)
  = (match classify first with Hit d => [d] | _ => [] end)
    ++ hits classify (S first) n.
Proof. reflexivity. Qed.

Lemma hits_0 (first : nat) : hits classify first 0 = [].
Proof. reflexivity. Qed.

Lemma scan_S (fuel max id : nat) (acc : list J) (m : nat) :
  scan classify (S fuel) max id acc m
  = if m <? max then
      match classify id with
      | Hit d => scan classify fuel max (id + 1) (acc ++ [d]) 0
      | Miss => scan classify fuel max (id + 1) acc (m + 1)
      | Stop => Some (Returned acc)
      | Abort => Some Raised
      end
    else Some (Returned acc).
Proof. reflexivity. Qed.

(** A walk that meets a run of [max] misses behind id [a] ends within
    [a + max] ids and keeps nothing from behind [a]. *)
Lemma scan_gap (a max : nat) :
  misses_run classify (S a) max ->
  forall r id acc m,
    id + r = a + max + 1 ->
    (a + 1 <= id -> id - (a + 1) <= m) ->
    exists o, scan classify (S r) max id acc m = Some o
      /\ (o = Raised
          \/ exists n, (n = 0 \/ id + n <= a + 1)
                       /\ o = Returned (acc ++ hits classify id n)).
Proof.
  intros Run. induction r as [|r IH]; intros id acc m Hr Hm.
  - assert (Hge : max <= m) by lia.
    apply Nat.ltb_ge in Hge. simpl. rewrite Hge.
    eexists. split; [reflexivity|]. right. exists 0.
    rewrite hits_0, app_nil_r. auto.
  - cbn [scan]. destruct (m <? max) eqn:Hlt.
    2:{ eexists. split; [reflexivity|]. right. exists 0.
        rewrite hits_0, app_nil_r. auto. }
    destruct (classify id) as [d| | |] eqn:C.
    + assert (Hid : id < a + 1).
      { destruct (Nat.lt_ge_cases id (a + 1)) as [H|H]; [exact H|].
        exfalso. assert (E : classify (S a + (id - (a + 1))) = Miss)
          by (apply Run; lia).
        replace (S a + (id - (a + 1))) with id in E by lia. congruence. }
      destruct (IH (id + 1) (acc ++ [d]) 0) as (o & Ho & Hres); [lia|lia|].
      exists o. split; [exact Ho|].
      destruct Hres as [->|(n & Hn & ->)]; [left; reflexivity|].
      right. exists (S n). split; [right; lia|].
      rewrite hits_S, C, <- app_assoc. replace (S id) with (id + 1) by lia.
      reflexivity.
    + destruct (IH (id + 1) acc (m + 1)) as (o & Ho & Hres); [lia|lia|].
      exists o. split; [exact Ho|].
      destruct Hres as [->|(n & Hn & ->)]; [left; reflexivity|].
      right. destruct (Nat.lt_ge_cases id (a + 1)) as [H|H].
      * exists (S n). split; [right; lia|].
        rewrite hits_S, C. replace (S id) with (id + 1) by lia. reflexivity.
      * exists 0. split; [left; reflexivity|].
        destruct Hn as [->|Hn]; [|lia]. rewrite !hits_0. reflexivity.
    + eexists. split; [reflexivity|]. right. exists 0.
      rewrite hits_0, app_nil_r. auto.
    + eexists. split; [reflexivity|]. left. reflexivity.
Qed.

(** A walk that meets neither a failing request nor a run of [max] misses
    before id [s], and at [s] a request that stops it or the end of such a
    run, returns what the ids before [s] hold. *)
Lemma scan_exact (first max s : nat) :
  (forall i, first <= i < s -> classify i = Miss \/ exists d, classify i = Hit d) ->
  (forall i, first <= i < s ->
     ~ (first + max <= i /\ misses_run classify (i - max) max)) ->
  classify s = Stop \/ (first + max <= s /\ misses_run classify (s - max) max) ->
  forall r id acc m,
    id + r = s -> first <= id -> m <= id - first ->
    misses_run classify (id - m) m ->
    (m = id - first \/ exists d, classify (id - m - 1) = Hit d) ->
    scan classify (S r) max id acc m = Some (Returned (acc ++ hits classify id r)).
Proof.
  intros Safe Free End. induction r as [|r IH]; intros id acc m Hr Hf Hm Run Top.
  - rewrite scan_S, hits_0, app_nil_r.
    destruct (m <? max) eqn:Hlt; [|reflexivity].
    apply Nat.ltb_lt in Hlt. replace id with s in * by lia.
    destruct End as [E|[E1 E2]]; [rewrite E; reflexivity|].
    exfalso. destruct Top as [->|(d & Hd)]; [lia|].
    assert (E : classify (s - max + (max - m - 1)) = Miss) by (apply E2; lia).
    replace (s - max + (max - m - 1)) with (s - m - 1) in E by lia. congruence.
  - rewrite scan_S.
    assert (Hlt : m < max).
    { destruct (Nat.lt_ge_cases m max) as [H|H]; [exact H|].
      exfalso. apply (Free id); [lia|]. split; [lia|].
      intros j Hj. replace (id - max + j) with (id - m + (m - max + j)) by lia.
      apply Run. lia. }
    apply Nat.ltb_lt in Hlt. rewrite Hlt.
    destruct (Safe id) as [C|(d & C)]; [lia| |]; rewrite C.
    + rewrite (IH (id + 1) acc (m + 1)); try lia.
      * rewrite hits_S, C. replace (S id) with (id + 1) by lia. reflexivity.
      * intros j Hj. destruct (Nat.eq_dec j m) as [->|Hne].
        -- replace (id + 1 - (m + 1) + m) with id by lia. exact C.
        -- replace (id + 1 - (m + 1) + j) with (id - m + j) by lia.
           apply Run. lia.
      * destruct Top as [->|(d & Hd)]; [left; lia|].
        right. exists d. replace (id + 1 - (m + 1) - 1) with (id - m - 1) by lia.
        exact Hd.
    + rewrite (IH (id + 1) (acc ++ [d]) 0); try lia.
      * rewrite hits_S, C, <- app_assoc. replace (S id) with (id + 1) by lia.
        reflexivity.
      * intros j Hj. lia.
      * right. exists d. replace (id + 1 - 0 - 1) with id by lia. exact C.
Qed.

End ScanProperties.

Section FetchLoops.

Local Open Scope nat_scope.

Variable Json : Type.

Lemma fetch_loop_scan (get_invoice : nat -> Invoices.answer Json)
    (fuel max : nat) : forall id invoices m,
  Invoices.fetch_loop get_invoice fuel max id invoices m
  = scan (fun i => invoice_probe (get_invoice i)) fuel max id invoices m.
Proof.
  induction fuel as [|fuel IH]; intros id invoices m; [reflexivity|].
  rewrite scan_S. cbn [Invoices.fetch_loop].
  destruct (m <? max); [|reflexivity].
  destruct (get_invoice id); simpl; try rewrite IH; reflexivity.
Qed.

Lemma invoices_from_hits (get_invoice : nat -> Invoices.answer Json) (first n : nat) :
  Invoices.invoices_from get_invoice first n
  = hits (fun i => invoice_probe (get_invoice i)) first n.
Proof.
  unfold Invoices.invoices_from, hits. apply flat_map_ext.
  intros i. destruct (get_invoice i); reflexivity.
Qed.

Lemma planned_time_loop_scan (truthy : Json -> bool)
    (get_planned_time : nat -> PlannedTime.answer Json) (fuel : nat) :
  forall id data m,
  PlannedTime.planned_time_loop truthy get_planned_time fuel id data m
  = scan (fun i => planned_probe truthy (get_planned_time i)) fuel
         PlannedTime.max_failures id data m.
Proof.
  induction fuel as [|fuel IH]; intros id data m; [reflexivity|].
  rewrite scan_S. cbn [PlannedTime.planned_time_loop].
  destruct (m <? PlannedTime.max_failures); [|reflexivity].
  unfold PlannedTime.fetch_planned_time.
  destruct (get_planned_time id) as [d| |]; simpl;
    [destruct (truthy d)| |]; try rewrite IH; reflexivity.
Qed.

Lemma planned_from_hits (truthy : Json -> bool)
    (get_planned_time : nat -> PlannedTime.answer Json) (first n : nat) :
  PlannedTime.planned_from truthy get_planned_time first n
  = hits (fun i => planned_probe truthy (get_planned_time i)) first n.
Proof.
  unfold PlannedTime.planned_from, hits. apply flat_map_ext.
  intros i. destruct (get_planned_time i) as [d| |]; simpl;
    [destruct (truthy d)| |]; reflexivity.
Qed.

Lemma nothing_planned_miss (truthy : Json -> bool)
    (get_planned_time : nat -> PlannedTime.answer Json) (i : nat) :
  PlannedTime.nothing_planned truthy get_planned_time i
  <-> planned_probe truthy (get_planned_time i) = Miss.
Proof.
  unfold PlannedTime.nothing_planned, PlannedTime.fetch_planned_time.
  destruct (get_planned_time i) as [d| |]; simpl.
  - split.
    + intros [H|(d' & H & T)]; [discriminate|]. injection H as <-.
      rewrite T. reflexivity.
    + intros H. right. exists d. split; [reflexivity|].
      destruct (truthy d); [discriminate|reflexivity].
  - split; auto.
  - split; [intros [H|(d' & H & _)]; discriminate|discriminate].
Qed.

(** X11 (invoices behind a gap).  When the [max_consecutive_misses] ids
    behind id [a] are all answered 404, [fetch_all_invoices] ends within
    [a + max_consecutive_misses] requests; unless an exception escapes it,
    it returns invoices of ids up to [a] only, in the order of their ids:
    no invoice behind the gap is fetched. *)
Theorem invoices_stop_at_gap (get_invoice : nat -> Invoices.answer Json)
    (max_consecutive_misses a : nat) :
  (forall j, j < max_consecutive_misses ->
     get_invoice (a + 1 + j) = Invoices.NotFound Json) ->
  exists o,
    Invoices.fetch_all_invoices get_invoice (a + max_consecutive_misses + 1)
      max_consecutive_misses = Some o
    /\ (o = Raised
        \/ exists n, n <= a /\ o = Returned (Invoices.invoices_from get_invoice 1 n)).
Proof.
  intros Run. unfold Invoices.fetch_all_invoices. rewrite fetch_loop_scan.
  destruct (@scan_gap Json (fun i => invoice_probe (get_invoice i)) a
              max_consecutive_misses) with
    (r := a + max_consecutive_misses) (id := 1) (acc := @nil Json) (m := 0)
    as (o & Ho & Hres).
  - intros j Hj. replace (S a + j) with (a + 1 + j) by lia.
    rewrite (Run j Hj). reflexivity.
  - lia.
  - lia.
  - exists o. replace (a + max_consecutive_misses + 1)
      with (S (a + max_consecutive_misses)) by lia.
    split; [exact Ho|].
    destruct Hres as [->|(n & Hn & ->)]; [left; reflexivity|].
    right. exists n. split; [lia|]. rewrite invoices_from_hits. reflexivity.
Qed.

(** X12 (invoices up to the first stop).  When, before id [s], no request
    raises and no run of [max_consecutive_misses] answers 404 ends, and the
    request for [s] raises a [RequestException] or [s] is the first id behind
    such a run, [fetch_all_invoices] returns within [s] requests exactly the
    invoices of the ids below [s], in the order of their ids.  A failed
    request so ends the fetch with the invoices read so far and no error. *)
Theorem invoices_up_to_first_stop (get_invoice : nat -> Invoices.answer Json)
    (max_consecutive_misses s : nat) :
  1 <= s ->
  (forall i, 1 <= i < s ->
     get_invoice i = Invoices.NotFound Json
     \/ exists d, get_invoice i = Invoices.Invoice d) ->
  (forall i, 1 <= i < s ->
     ~ (1 + max_consecutive_misses <= i
        /\ forall j, j < max_consecutive_misses ->
             get_invoice (i - max_consecutive_misses + j) = Invoices.NotFound Json)) ->
  get_invoice s = Invoices.RequestFailed Json
  \/ (1 + max_consecutive_misses <= s
      /\ forall j, j < max_consecutive_misses ->
           get_invoice (s - max_consecutive_misses + j) = Invoices.NotFound Json) ->
  Invoices.fetch_all_invoices get_invoice s max_consecutive_misses
  = Some (Returned (Invoices.invoices_from get_invoice 1 (s - 1))).
Proof.
  intros Hs Safe Free End.
  assert (M : forall i n, (forall j, j < n -> get_invoice (i + j) = Invoices.NotFound Json)
                          <-> misses_run (fun i => invoice_probe (get_invoice i)) i n).
  { intros i n. unfold misses_run. split; intros H j Hj.
    - rewrite (H j Hj). reflexivity.
    - specialize (H j Hj). destruct (get_invoice (i + j)); try discriminate.
      reflexivity. }
  unfold Invoices.fetch_all_invoices.
  rewrite fetch_loop_scan, invoices_from_hits.
  replace s with (S (s - 1)) at 1 by lia.
  change (Returned (hits (fun i => invoice_probe (get_invoice i)) 1 (s - 1)))
    with (Returned ([] ++ hits (fun i => invoice_probe (get_invoice i)) 1 (s - 1))).
  apply (@scan_exact Json (fun i => invoice_probe (get_invoice i)) 1
           max_consecutive_misses s); try lia.
  - intros i Hi. destruct (Safe i Hi) as [H|(d & H)]; rewrite H; simpl; eauto.
  - intros i Hi [H1 H2]. apply (Free i Hi). split; [exact H1|]. apply M, H2.
  - destruct End as [H|[H1 H2]]; [left; rewrite H; reflexivity|].
    right. split; [exact H1|]. apply M, H2.
  - intros j Hj. lia.
Qed.

(** X13 (planned time behind a gap).  When the 200 project ids behind id [a]
    give nothing to keep (a [RequestException], or data that is falsy), the
    loop of [unanet_fetch_planned_time], which starts at project 2000, ends
    within [a + 201 - 2000] requests; unless an exception escapes it, it has
    kept planned time of project ids up to [a] only, in the order of the
    ids. *)
Theorem planned_time_stops_at_gap (truthy : Json -> bool)
    (get_planned_time : nat -> PlannedTime.answer Json) (a : nat) :
  1999 <= a ->
  (forall j, j < 200 ->
     PlannedTime.nothing_planned truthy get_planned_time (a + 1 + j)) ->
  exists o,
    PlannedTime.fetch_all_planned_time truthy get_planned_time (a + 202 - 2000)
    = Some o
    /\ (o = Raised
        \/ exists n, 2000 + n <= a + 1
                     /\ o = Returned (PlannedTime.planned_from truthy get_planned_time
                                        2000 n)).
Proof.
  intros Ha Run. unfold PlannedTime.fetch_all_planned_time.
  rewrite planned_time_loop_scan.
  destruct (@scan_gap Json (fun i => planned_probe truthy (get_planned_time i)) a
              PlannedTime.max_failures) with
    (r := a + 201 - 2000) (id := PlannedTime.start_project_id)
    (acc := @nil Json) (m := 0)
    as (o & Ho & Hres).
  - intros j Hj. replace (S a + j) with (a + 1 + j) by lia.
    apply nothing_planned_miss, Run. exact Hj.
  - unfold PlannedTime.start_project_id, PlannedTime.max_failures. lia.
  - unfold PlannedTime.start_project_id. lia.
  - exists o. replace (a + 202 - 2000) with (S (a + 201 - 2000)) by lia.
    split; [exact Ho|].
    destruct Hres as [->|(n & Hn & ->)]; [left; reflexivity|].
    right. exists n. unfold PlannedTime.start_project_id in *.
    split; [|rewrite planned_from_hits; reflexivity].
    destruct Hn as [->|Hn]; lia.
Qed.

(** X14 (planned time up to the first gap).  When no request for a project
    id from 2000 to below [s] raises an exception that escapes, no run of 200
    ids that give nothing ends before [s], and [s] is the first id behind
    such a run, the loop of [unanet_fetch_planned_time] ends within
    [s - 1999] requests with exactly the truthy planned time of the ids from
    2000 to below [s], in the order of the ids. *)
Theorem planned_time_up_to_first_gap (truthy : Json -> bool)
    (get_planned_time : nat -> PlannedTime.answer Json) (s : nat) :
  (forall i, 2000 <= i < s ->
     get_planned_time i <> PlannedTime.OtherFailure Json) ->
  (forall i, 2000 <= i < s ->
     ~ (2200 <= i
        /\ forall j, j < 200 ->
             PlannedTime.nothing_planned truthy get_planned_time (i - 200 + j))) ->
  2200 <= s ->
  (forall j, j < 200 ->
     PlannedTime.nothing_planned truthy get_planned_time (s - 200 + j)) ->
  PlannedTime.fetch_all_planned_time truthy get_planned_time (s - 1999)
  = Some (Returned (PlannedTime.planned_from truthy get_planned_time 2000 (s - 2000))).
Proof.
  intros Safe Free Hs End.
  unfold PlannedTime.fetch_all_planned_time.
  rewrite planned_time_loop_scan, planned_from_hits.
  replace (s - 1999) with (S (s - 2000)) by lia.
  change (Returned (hits (fun i => planned_probe truthy (get_planned_time i))
                      2000 (s - 2000)))
    with (Returned ([] ++ hits (fun i => planned_probe truthy (get_planned_time i))
                      2000 (s - 2000))).
  apply (@scan_exact Json (fun i => planned_probe truthy (get_planned_time i))
           PlannedTime.start_project_id PlannedTime.max_failures s);
    unfold PlannedTime.start_project_id, PlannedTime.max_failures; try lia.
  - intros i Hi. specialize (Safe i Hi).
    destruct (get_planned_time i) as [d| |]; simpl;
      [destruct (truthy d); eauto|auto|congruence].
  - intros i Hi [H1 H2]. apply (Free i Hi). split; [lia|].
    intros j Hj. apply nothing_planned_miss, H2, Hj.
  - right. split; [lia|]. intros j Hj. apply nothing_planned_miss, End, Hj.
  - intros j Hj. lia.
Qed.

End FetchLoops.

(** ** The fetch loops on the example services *)

(** Ids 4 and 5 are missing: with a limit of two misses the fetch ends in
    six steps, with invoices of ids up to 3. *)
Lemma invoices_stop_at_gap_example :
  (forall j, (j < 2)%nat -> example_invoices (3 + 1 + j) = Invoices.NotFound nat)
  /\ exists o,
       Invoices.fetch_all_invoices example_invoices (3 + 2 + 1) 2 = Some o
       /\ (o = Raised
           \/ exists n, (n <= 3)%nat
                        /\ o = Returned (Invoices.invoices_from example_invoices 1 n)).
Proof.
  assert (Run : forall j, (j < 2)%nat ->
                  example_invoices (3 + 1 + j) = Invoices.NotFound nat).
  { intros j Hj. destruct j as [|[|j]]; [reflexivity|reflexivity|lia]. }
  split; [exact Run|].
  exact (@invoices_stop_at_gap nat example_invoices 2%nat 3%nat Run).
Defined.

(** With a limit of three misses the failing request for id 6 ends the
    fetch: invoices 1 and 3 are returned. *)
Lemma invoices_up_to_first_stop_example :
  example_invoices 6 = Invoices.RequestFailed nat
  /\ Invoices.fetch_all_invoices example_invoices 6 3
     = Some (Returned (Invoices.invoices_from example_invoices 1 (6 - 1)))
  /\ Invoices.invoices_from example_invoices 1 (6 - 1) = [1%nat; 3%nat].
Proof.
  split; [reflexivity|]. split; [|reflexivity].
  apply (@invoices_up_to_first_stop nat example_invoices 3%nat 6%nat).
  - lia.
  - intros i Hi.
    destruct i as [|[|[|[|[|[|i]]]]]]; try lia;
      first [left; reflexivity|right; eexists; reflexivity].
  - intros i Hi [H1 H2].
    destruct i as [|[|[|[|[|[|i]]]]]]; try lia.
    + specialize (H2 0%nat). cbv in H2. discriminate H2. lia.
    + specialize (H2 1%nat). cbv in H2. discriminate H2. lia.
  - left. reflexivity.
Defined.

(** Only project 2000 has planned time: the loop ends after the 200 ids
    behind it. *)
Lemma planned_time_stops_at_gap_example :
  (forall j, (j < 200)%nat ->
     PlannedTime.nothing_planned (fun _ => true) example_planned_time (2000 + 1 + j))
  /\ exists o,
       PlannedTime.fetch_all_planned_time (fun _ => true) example_planned_time
         (2000 + 202 - 2000) = Some o
       /\ (o = Raised
           \/ exists n, (2000 + n <= 2000 + 1)%nat
                        /\ o = Returned (PlannedTime.planned_from (fun _ => true)
                                           example_planned_time 2000 n)).
Proof.
  assert (Run : forall j, (j < 200)%nat ->
            PlannedTime.nothing_planned (fun _ => true) example_planned_time
              (2000 + 1 + j)).
  { intros j Hj. left.
    unfold PlannedTime.fetch_planned_time, example_planned_time.
    destruct (Nat.eqb_spec (2000 + 1 + j) 2000) as [E|_]; [lia|reflexivity]. }
  split; [exact Run|].
  apply (@planned_time_stops_at_gap nat (fun _ => true) example_planned_time 2000%nat);
    [lia|exact Run].
Defined.

(** The loop ends at id 2201 with the planned time of project 2000. *)
Lemma planned_time_up_to_first_gap_example :
  (forall j, (j < 200)%nat ->
     PlannedTime.nothing_planned (fun _ => true) example_planned_time (2201 - 200 + j))
  /\ PlannedTime.fetch_all_planned_time (fun _ => true) example_planned_time
       (2201 - 1999)
     = Some (Returned (PlannedTime.planned_from (fun _ => true) example_planned_time
                         2000 (2201 - 2000))).
Proof.
  assert (Run : forall j, (j < 200)%nat ->
            PlannedTime.nothing_planned (fun _ => true) example_planned_time
              (2201 - 200 + j)).
  { intros j Hj. left.
    unfold PlannedTime.fetch_planned_time, example_planned_time.
    destruct (Nat.eqb_spec (2201 - 200 + j) 2000) as [E|_]; [lia|reflexivity]. }
  split; [exact Run|].
  apply (@planned_time_up_to_first_gap nat (fun _ => true) example_planned_time 2201%nat).
  - intros i _. unfold example_planned_time.
    destruct (Nat.eqb i 2000); discriminate.
  - intros i Hi [H1 H2]. assert (E : i = 2200%nat) by lia. subst i.
    specialize (H2 0%nat).
    destruct H2 as [H2|(d & H2 & T)]; [lia| |discriminate T].
    unfold PlannedTime.fetch_planned_time, example_planned_time in H2.
    destruct (Nat.eqb_spec (2200 - 200 + 0) 2000) as [_|N]; [discriminate H2|lia].
  - lia.
  - exact Run.
Defined.
